(** * qr-generator: the page component (src/app/page.tsx) and the scanner
    component (components/QRScanner.tsx), embedded as state transformers.

    The React component [Home] keeps five state variables and two refs; its
    event handlers are modelled as functions on a [World] record that holds
    them, the callbacks that are registered but have not fired yet, and a log
    of what left the component (console, encoder calls, downloads).  The 2D
    canvas is modelled by what has been painted on it; numbers are IEEE
    doubles, the text typed in is a sequence of UTF-16 code units. *)

From Stdlib Require Import String Ascii List Bool ZArith NArith Lia.
From Stdlib Require Import DecimalString DecimalZ.
From Stdlib Require Import Floats.
From Stdlib Require Uint63.
Import ListNotations.

Local Open Scope string_scope.
Local Open Scope list_scope.
Local Open Scope Z_scope.

(** ** JavaScript values used by the component *)

Module JS.

(** A UTF-16 code unit, and a string as the sequence of its code units. *)
Definition code_unit := N.

Definition text := list code_unit.

(** The code units [String.prototype.trim] removes: WhiteSpace (TAB, VT,
    FF, SPACE, NBSP, ZWNBSP and the Unicode space separators) and
    LineTerminator (LF, CR, LS, PS). *)
Definition is_whitespace (c : code_unit) : bool :=
  ((9 <=? c) && (c <=? 13)            (* TAB, LF, VT, FF, CR *)
   || (c =? 32) || (c =? 160)         (* SPACE, NBSP *)
   || (c =? 5760)                     (* U+1680 *)
   || ((8192 <=? c) && (c <=? 8202))  (* U+2000 .. U+200A *)
   || (c =? 8232) || (c =? 8233)      (* U+2028, U+2029 *)
   || (c =? 8239) || (c =? 8287)      (* U+202F, U+205F *)
   || (c =? 12288) || (c =? 65279))%N (* U+3000, U+FEFF *).

Fixpoint trimStart (s : text) : text :=
  match s with
  | [] => []
  | c :: rest => if is_whitespace c then trimStart rest else s
  end.

Fixpoint trimEnd (s : text) : text :=
  match s with
  | [] => []
  | c :: rest =>
      match trimEnd rest with
      | [] => if is_whitespace c then [] else [c]
      | kept => c :: kept
      end
  end.

(** [s.trim()] *)
Definition trim (s : text) : text := trimEnd (trimStart s).

(** A string in a condition: only the empty string is falsy.  [truthy] is
    for the strings the page makes itself (messages, data URLs), which are
    kept as [string]; [text_truthy] is for the text typed in. *)
Definition truthy (s : string) : bool :=
  match s with
  | EmptyString => false
  | String _ _ => true
  end.

Definition text_truthy (s : text) : bool :=
  match s with
  | [] => false
  | _ :: _ => true
  end.

(** Every code unit of [s] is white space (so also: [s] is empty). *)
Fixpoint whitespace_only (s : text) : bool :=
  match s with
  | [] => true
  | c :: rest => is_whitespace c && whitespace_only rest
  end.

(** The code units of a string of ASCII characters. *)
Fixpoint text_of_string (s : string) : text :=
  match s with
  | EmptyString => []
  | String c rest => N_of_ascii c :: text_of_string rest
  end.

(** Numbers are IEEE 754 doubles, with the operations of the processor. *)
Definition number := float.

(** The double of an integer (exact below 2^53 in absolute value). *)
Definition num (z : Z) : number :=
  match z with
  | Zneg p => PrimFloat.opp (PrimFloat.of_uint63 (Uint63.of_Z (Zpos p)))
  | _ => PrimFloat.of_uint63 (Uint63.of_Z z)
  end.

(** [Math.min(a, b)]: NaN if either is NaN, and -0 below +0. *)
Definition Math_min (a b : number) : number :=
  if PrimFloat.is_nan a then a
  else if PrimFloat.is_nan b then b
  else if PrimFloat.ltb a b then a
  else if PrimFloat.ltb b a then b
  else if PrimFloat.get_sign a then a else b.

(** [Math.PI] *)
Definition Math_PI : number := 0x1.921fb54442d18p+1%float.

(** An integer inside a template literal: its decimal digits. *)
Definition toString (z : Z) : string := NilZero.string_of_int (Z.to_int z).

End JS.

Import JS.

(** ** The 2D canvas *)

(** A loaded [HTMLImageElement]: where it came from and its natural size. *)
Record Image := mkImage {
  img_src : string;
  img_width : Z;
  img_height : Z
}.

(** The options object handed to the QR encoder. *)
Record QROptions := mkQROptions {
  errorCorrectionLevel : string;
  qr_width : Z;
  margin : Z
}.

(** What [beginPath] ... [fill]/[clip] see of the current path. *)
Inductive PathItem :=
| PRoundRect (x y w h : number) (radii : list number)
| PArc (x y radius : number) (startAngle endAngle : number)
| PClose.

Definition Path := list PathItem.

(** A clip region is the intersection of the paths clipped so far. *)
Definition ClipRegion := list Path.

(** What is on the bitmap, oldest first.  Each layer carries the clip
    region that was in force when it was painted. *)
Inductive Layer :=
| FillLayer (style : string) (p : Path) (clipped : ClipRegion)
| ImageLayer (img : Image) (dx dy dw dh : number) (clipped : ClipRegion)
| ClearLayer (x y w h : number) (clipped : ClipRegion)
| QRLayer (data : text) (opts : QROptions) (clipped : ClipRegion).

(** A canvas element together with its 2D context. *)
Record Canvas := mkCanvas {
  canvas_width : Z;
  canvas_height : Z;
  fillStyle : string;
  path : Path;
  clip_region : ClipRegion;
  layers : list Layer
}.

(** The pixels: what [toDataURL] serialises. *)
Record Bitmap := mkBitmap {
  bm_width : Z;
  bm_height : Z;
  bm_layers : list Layer
}.

Definition bitmap (c : Canvas) : Bitmap :=
  mkBitmap (canvas_width c) (canvas_height c) (layers c).

Module Ctx.

(** [document.createElement('canvas')]: 300 x 150, transparent. *)
Definition createElement_canvas : Canvas :=
  mkCanvas 300 150 "#000000" [] [] [].

(** Assigning [canvas.width] or [canvas.height] resets bitmap and context. *)
Definition set_width (v : Z) (c : Canvas) : Canvas :=
  mkCanvas v (canvas_height c) "#000000" [] [] [].

Definition set_height (v : Z) (c : Canvas) : Canvas :=
  mkCanvas (canvas_width c) v "#000000" [] [] [].

Definition set_fillStyle (style : string) (c : Canvas) : Canvas :=
  mkCanvas (canvas_width c) (canvas_height c) style (path c) (clip_region c) (layers c).

Definition set_path (p : Path) (c : Canvas) : Canvas :=
  mkCanvas (canvas_width c) (canvas_height c) (fillStyle c) p (clip_region c) (layers c).

Definition paint (l : Layer) (c : Canvas) : Canvas :=
  mkCanvas (canvas_width c) (canvas_height c) (fillStyle c) (path c) (clip_region c)
           (layers c ++ [l]).

Definition beginPath (c : Canvas) : Canvas := set_path [] c.

Definition roundRect (x y w h : number) (radii : list number) (c : Canvas) : Canvas :=
  set_path (path c ++ [PRoundRect x y w h radii]) c.

Definition arc (x y radius : number) (startAngle endAngle : number) (c : Canvas) : Canvas :=
  set_path (path c ++ [PArc x y radius startAngle endAngle]) c.

Definition closePath (c : Canvas) : Canvas :=
  set_path (path c ++ [PClose]) c.

Definition fill (c : Canvas) : Canvas :=
  paint (FillLayer (fillStyle c) (path c) (clip_region c)) c.

Definition clip (c : Canvas) : Canvas :=
  mkCanvas (canvas_width c) (canvas_height c) (fillStyle c) (path c)
           (clip_region c ++ [path c]) (layers c).

Definition drawImage (img : Image) (dx dy dw dh : number) (c : Canvas) : Canvas :=
  paint (ImageLayer img dx dy dw dh (clip_region c)) c.

(** The rectangle [x, y, w, h] covers the whole bitmap (a comparison with
    NaN is false). *)
Definition covers (x y w h : number) (c : Canvas) : bool :=
  PrimFloat.leb x (num 0) && PrimFloat.leb y (num 0)
  && PrimFloat.leb (num (canvas_width c)) (x + w)%float
  && PrimFloat.leb (num (canvas_height c)) (y + h)%float.

(** [clearRect] erases to transparent inside the clip region: with no clip
    and a rectangle over the whole bitmap nothing that was painted is left. *)
Definition clearRect (x y w h : number) (c : Canvas) : Canvas :=
  match clip_region c with
  | [] =>
      if covers x y w h c
      then mkCanvas (canvas_width c) (canvas_height c) (fillStyle c) (path c) [] []
      else paint (ClearLayer x y w h []) c
  | _ :: _ => paint (ClearLayer x y w h (clip_region c)) c
  end.

End Ctx.

(** ** What the browser and the QR library decide *)

(** A file picked in the file input; only its size is inspected by the page. *)
Record File := mkFile {
  file_name : string;
  file_size : Z
}.

(** The outcome of [QRCode.toCanvas]: it renders the symbol into a square
    of [size] pixels a side, which it computes from the symbol's module count
    and the options, or it throws. *)
Inductive Encoding :=
| Rendered (size : positive)
| Failed (err : string).

(** The collaborators the page calls but does not implement. *)
Class Browser := {
  (** [FileReader.readAsDataURL]: the data URL of a file's content *)
  readAsDataURL : File -> string;
  (** loading an image from a URL: its natural size, or [None] when the
      load fails and [onload] never fires *)
  decode : string -> option (Z * Z);
  (** whether the qrcode library encodes a text under given options, and
      the side of the image it then renders *)
  QRCode_create : text -> QROptions -> Encoding;
  (** PNG-compressing and base64-encoding a bitmap *)
  png_base64 : Bitmap -> string
}.

(** [canvas.toDataURL(type)]; a bitmap with no pixels gives ["data:,"]. *)
Definition toDataURL `{Browser} (c : Canvas) (type : string) : string :=
  if (canvas_width c =? 0) || (canvas_height c =? 0)
  then "data:,"
  else ("data:" ++ type ++ ";base64," ++ png_base64 (bitmap c))%string.

(** ** The component's state *)

(** A callback that is registered and has not fired yet. *)
Inductive Task :=
| ReaderTask (file : File)        (* reader.onload, after readAsDataURL(file) *)
| ImgTask (src : string)          (* img.onload, after img.src = src *)
| LogoImgTask (src : string).     (* logoImg.onload, after logoImg.src = src *)

(** What leaves the component. *)
Inductive Effect :=
| EncoderCall (data : text) (opts : QROptions)
| ConsoleError (label : string) (err : string)
| AnchorClick (href : string) (download : string).

Record World := mkWorld {
  inputData : text;
  qrCode : string;
  logoPreview : string;
  error : string;
  loading : bool;
  (** [logoInputRef.current]: the file input's [value], when mounted *)
  logoInputRef : option string;
  (** [canvasRef.current]: the hidden working canvas, when mounted *)
  canvasRef : option Canvas;
  pending : list Task;
  effects : list Effect
}.

(** The page as first rendered: empty state, a 400 x 400 hidden canvas. *)
Definition initial : World :=
  mkWorld [] "" "" "" false (Some "")
          (Some (mkCanvas 400 400 "#000000" [] [] [])) [] [].

(** ** Statements: state transformers with JavaScript's completions *)

Inductive Completion :=
| Normal
| Return
| Throw (err : string).

Definition Stmt := World -> Completion * World.

Definition skip : Stmt := fun w => (Normal, w).

Definition return_ : Stmt := fun w => (Return, w).

Definition seq (a b : Stmt) : Stmt :=
  fun w =>
    match a w with
    | (Normal, w') => b w'
    | abrupt => abrupt
    end.

Notation "a ;; b" := (seq a b) (at level 61, right associativity).

Definition when (cond : bool) (body : Stmt) : Stmt :=
  if cond then body else skip.

Definition if_else (cond : bool) (yes no : Stmt) : Stmt :=
  if cond then yes else no.

(** [try { body } catch (err) { handler } finally { final }] *)
Definition try_catch_finally (body : Stmt) (handler : string -> Stmt) (final : Stmt) : Stmt :=
  fun w =>
    let (c1, w1) := body w in
    let (c2, w2) := match c1 with
                    | Throw err => handler err w1
                    | _ => (c1, w1)
                    end in
    match final w2 with
    | (Normal, w3) => (c2, w3)
    | abrupt => abrupt
    end.

(** Running a handler to its end. *)
Definition exec (body : Stmt) (w : World) : World := snd (body w).

Definition setInputData (v : text) : Stmt := fun w =>
  (Normal, mkWorld v (qrCode w) (logoPreview w) (error w) (loading w)
                   (logoInputRef w) (canvasRef w) (pending w) (effects w)).

Definition setQRCode (v : string) : Stmt := fun w =>
  (Normal, mkWorld (inputData w) v (logoPreview w) (error w) (loading w)
                   (logoInputRef w) (canvasRef w) (pending w) (effects w)).

Definition setLogoPreview (v : string) : Stmt := fun w =>
  (Normal, mkWorld (inputData w) (qrCode w) v (error w) (loading w)
                   (logoInputRef w) (canvasRef w) (pending w) (effects w)).

Definition setError (v : string) : Stmt := fun w =>
  (Normal, mkWorld (inputData w) (qrCode w) (logoPreview w) v (loading w)
                   (logoInputRef w) (canvasRef w) (pending w) (effects w)).

Definition setLoading (v : bool) : Stmt := fun w =>
  (Normal, mkWorld (inputData w) (qrCode w) (logoPreview w) (error w) v
                   (logoInputRef w) (canvasRef w) (pending w) (effects w)).

Definition set_logoInput_value (v : string) : Stmt := fun w =>
  (Normal, mkWorld (inputData w) (qrCode w) (logoPreview w) (error w) (loading w)
                   (Some v) (canvasRef w) (pending w) (effects w)).

Definition set_canvas (c : Canvas) : Stmt := fun w =>
  (Normal, mkWorld (inputData w) (qrCode w) (logoPreview w) (error w) (loading w)
                   (logoInputRef w) (Some c) (pending w) (effects w)).

Definition set_pending (ts : list Task) (w : World) : World :=
  mkWorld (inputData w) (qrCode w) (logoPreview w) (error w) (loading w)
          (logoInputRef w) (canvasRef w) ts (effects w).

(** Registering a callback for later. *)
Definition schedule (t : Task) : Stmt := fun w =>
  (Normal, set_pending (pending w ++ [t]) w).

Definition emit (e : Effect) : Stmt := fun w =>
  (Normal, mkWorld (inputData w) (qrCode w) (logoPreview w) (error w) (loading w)
                   (logoInputRef w) (canvasRef w) (pending w) (effects w ++ [e])).

(** A drawing call on the working canvas, through [canvas]/[ctx]. *)
Definition on_canvas (draw : Canvas -> Canvas) : Stmt := fun w =>
  match canvasRef w with
  | Some c => set_canvas (draw c) w
  | None => (Normal, w)
  end.

(** ** The handlers of page.tsx *)

Section Handlers.

Context `{Browser}.

Local Open Scope float_scope.

(** The canvas built inside [img.onload] (lines 33-81), as it is when
    [canvas.toDataURL] is called on it. *)
Definition img_onload_canvas (img : Image) : Canvas :=
  let canvas := Ctx.createElement_canvas in
  let maxSize := 100%Z in
  let borderWidth := 10%Z in
  let canvas := Ctx.set_width maxSize canvas in
  let canvas := Ctx.set_height maxSize canvas in
  let width := num (img_width img) in
  let height := num (img_height img) in
  let scale := Math_min ((num maxSize - num 2 * num borderWidth) / width)
                        ((num maxSize - num 2 * num borderWidth) / height) in
  let scaledWidth := width * scale in
  let scaledHeight := height * scale in
  let canvas := Ctx.set_fillStyle "white" canvas in
  let canvas := Ctx.beginPath canvas in
  let canvas := Ctx.roundRect (num 0) (num 0) (num maxSize) (num maxSize) [num 20] canvas in
  let canvas := Ctx.fill canvas in
  let canvas := Ctx.beginPath canvas in
  let canvas := Ctx.arc (num maxSize / num 2) (num maxSize / num 2)
                        ((num maxSize - num 2 * num borderWidth) / num 2)
                        (num 0) (Math_PI * num 2) canvas in
  let canvas := Ctx.closePath canvas in
  let canvas := Ctx.clip canvas in
  let x := (num maxSize - scaledWidth) / num 2 in
  let y := (num maxSize - scaledHeight) / num 2 in
  Ctx.drawImage img x y scaledWidth scaledHeight canvas.

(** [img.onload] of the upload handler: process the logo, set the preview. *)
Definition img_onload (img : Image) : World -> World :=
  exec (setLogoPreview (toDataURL (img_onload_canvas img) "image/png")).

(** [reader.onload]: start loading the file's data URL as an image. *)
Definition reader_onload (result : string) : World -> World :=
  exec (schedule (ImgTask result)).

(** [handleLogoUpload], with [e.target.files?.[0]] as its argument. *)
Definition handleLogoUpload (file : option File) : World -> World :=
  exec (match file with
        | Some file =>
            when (file_size file >? 5 * 1024 * 1024)%Z
                 (setError "Logo must be less than 5MB" ;; return_) ;;
            schedule (ReaderTask file)
        | None => skip
        end).

Definition qrOptions : QROptions := mkQROptions "H" 400 1.

(** What the library's canvas renderer does to the canvas it is given:
    it clears it, assigns [height] and [width] the side of the image (which
    resets the bitmap and the context), and puts the image data. *)
Definition render_qr (data : text) (opts : QROptions) (size : positive)
           (c : Canvas) : Canvas :=
  let c := Ctx.clearRect (num 0) (num 0)
             (num (canvas_width c)) (num (canvas_height c)) c in
  let c := Ctx.set_height (Zpos size) c in
  let c := Ctx.set_width (Zpos size) c in
  Ctx.paint (QRLayer data opts (clip_region c)) c.

(** [await QRCode.toCanvas(canvas, text, opts)] *)
Definition QRCode_toCanvas (data : text) (opts : QROptions) : Stmt :=
  emit (EncoderCall data opts) ;;
  match QRCode_create data opts with
  | Rendered size => on_canvas (render_qr data opts size)
  | Failed err => fun w => (Throw err, w)
  end.

(** [if (!canvas) return;] *)
Definition return_unless_canvas : Stmt := fun w =>
  match canvasRef w with
  | Some _ => (Normal, w)
  | None => (Return, w)
  end.

(** A statement that reads the working canvas. *)
Definition with_canvas (k : Canvas -> Stmt) : Stmt := fun w =>
  match canvasRef w with
  | Some canvas => k canvas w
  | None => (Normal, w)
  end.

(** The [try] block of [embedLogoInQRCode] (lines 101-139). *)
Definition embedLogoInQRCode_try (inputData : text) (logoPreview : string) : Stmt :=
  setLoading true ;;
  setError "" ;;
  return_unless_canvas ;;
  with_canvas (fun canvas =>
    on_canvas (Ctx.clearRect (num 0) (num 0)
                 (num (canvas_width canvas)) (num (canvas_height canvas)))) ;;
  QRCode_toCanvas inputData qrOptions ;;
  if_else (truthy logoPreview)
    (schedule (LogoImgTask logoPreview))
    (with_canvas (fun canvas => setQRCode (toDataURL canvas "image/png"))).

(** The [catch] block (lines 140-142). *)
Definition embedLogoInQRCode_catch (err : string) : Stmt :=
  emit (ConsoleError "QR Code Generation Error:" err) ;;
  setError "Failed to generate QR code".

(** [embedLogoInQRCode]; [inputData] and [logoPreview] are the values of the
    render the callback was created in. *)
Definition embedLogoInQRCode (w : World) : World :=
  exec (when (negb (text_truthy (trim (inputData w))))
             (setError "Please enter data" ;; return_) ;;
        try_catch_finally
          (embedLogoInQRCode_try (inputData w) (logoPreview w))
          embedLogoInQRCode_catch
          (setLoading false)) w.

(** [logoImg.onload] (lines 123-134): overlay the logo, export. *)
Definition logoImg_onload (logoImg : Image) : World -> World :=
  exec (with_canvas (fun canvas =>
          let logoSize := 100%Z in
          let x := (num (canvas_width canvas) - num logoSize) / num 2 in
          let y := (num (canvas_height canvas) - num logoSize) / num 2 in
          on_canvas (Ctx.drawImage logoImg x y (num logoSize) (num logoSize))) ;;
        with_canvas (fun canvas => setQRCode (toDataURL canvas "image/png"))).

(** [removeLogo] *)
Definition removeLogo : World -> World :=
  exec (setLogoPreview "" ;;
        fun w => match logoInputRef w with
                 | Some _ => set_logoInput_value "" w
                 | None => (Normal, w)
                 end).

(** [downloadQRCode], with [Date.now()] as its argument. *)
Definition downloadQRCode (now : Z) (w : World) : World :=
  exec (when (negb (truthy (qrCode w)))
             (setError "No QR code to download" ;; return_) ;;
        emit (AnchorClick (qrCode w) ("qrcode-" ++ toString now ++ ".png")%string)) w.

(** ** The event loop *)

(** A registered callback fires: the browser supplies what it loaded. *)
Definition run_task (t : Task) : World -> World :=
  match t with
  | ReaderTask file => reader_onload (readAsDataURL file)
  | ImgTask src =>
      match decode src with
      | Some (w, h) => img_onload (mkImage src w h)
      | None => fun world => world
      end
  | LogoImgTask src =>
      match decode src with
      | Some (w, h) => logoImg_onload (mkImage src w h)
      | None => fun world => world
      end
  end.

Fixpoint remove_nth {A} (n : nat) (l : list A) : list A :=
  match n, l with
  | _, [] => []
  | O, _ :: rest => rest
  | S n', a :: rest => a :: remove_nth n' rest
  end.

(** Picking a file: the browser updates the input's [value] and then fires
    the change event. *)
Definition picked (file : option File) : Stmt := fun w =>
  match logoInputRef w, file with
  | Some _, Some f => set_logoInput_value ("C:\fakepath\" ++ file_name f)%string w
  | Some _, None => set_logoInput_value "" w
  | None, _ => (Normal, w)
  end.

Inductive Event :=
| ChangeInput (data : text)
| ChooseFile (file : option File)
| Fire (n : nat)
| ClickGenerate
| ClickRemoveLogo
| ClickDownload (now : Z).

Definition step (e : Event) (w : World) : World :=
  match e with
  | ChangeInput data => exec (setInputData data) w
  | ChooseFile file => handleLogoUpload file (exec (picked file) w)
  | Fire n =>
      match nth_error (pending w) n with
      | Some t => run_task t (set_pending (remove_nth n (pending w)) w)
      | None => w
      end
  | ClickGenerate => embedLogoInQRCode w
  | ClickRemoveLogo => removeLogo w
  | ClickDownload now => downloadQRCode now w
  end.

(** Events in the order they happen. *)
Definition run (es : list Event) (w : World) : World :=
  fold_left (fun w e => step e w) es w.

Definition reachable (w : World) : Prop :=
  exists es, w = run es initial.

End Handlers.

(** The working canvas as the page renders it (lines 245-250) and as the
    handlers and the encoder keep it: mounted, a square with pixels, never
    clipped. *)
Definition working_canvas (w : World) (c : Canvas) : Prop :=
  canvasRef w = Some c
  /\ 0 < canvas_width c /\ canvas_height c = canvas_width c
  /\ clip_region c = [].

(** A canvas holding exactly these layers, everything else as in [c]. *)
Definition with_layers (ls : list Layer) (c : Canvas) : Canvas :=
  mkCanvas (canvas_width c) (canvas_height c) (fillStyle c) (path c)
           (clip_region c) ls.

(** A data URL of a PNG image, as [toDataURL('image/png')] gives for a
    bitmap that has pixels. *)
Definition is_png_data_url `{Browser} (s : string) : Prop :=
  exists b, s = ("data:image/png;base64," ++ png_base64 b)%string.

(** A layer is an overlay when it is a drawn image. *)
Definition is_overlay (l : Layer) : bool :=
  match l with
  | ImageLayer _ _ _ _ _ _ => true
  | _ => false
  end.

(** A statement leaves the logo alone: the preview, the file input and the
    callbacks registered so far (a file being read among them) stay. *)
Definition keeps_logo (s : Stmt) : Prop :=
  forall w,
    logoPreview (snd (s w)) = logoPreview w
    /\ logoInputRef (snd (s w)) = logoInputRef w
    /\ exists added, pending (snd (s w)) = pending w ++ added.

(** ** The scanner component (components/QRScanner.tsx) *)

Module QRScanner.

Record Config := mkConfig {
  fps : Z;
  qrbox_width : Z;
  qrbox_height : Z
}.

(** The life of an [Html5QrcodeScanner]: constructed, rendering (camera on,
    frames sampled), cleared (camera released, no more callbacks). *)
Inductive Status :=
| Constructed
| Scanning
| Cleared.

Record Html5QrcodeScanner := mkScanner {
  elementId : string;
  config : Config;
  verbose : bool;
  status : Status
}.

(** What one sampled frame gives. *)
Inductive Frame :=
| Decoded (decodedText : string)
| NotDecoded (error : string).

Record State := mkState {
  (** every widget constructed so far, oldest first *)
  widgets : list Html5QrcodeScanner;
  (** [scannerRef.current], as an index into [widgets] *)
  scannerRef : option nat;
  (** the calls of [onResult], oldest first *)
  results : list string;
  (** the calls of [console.error], oldest first *)
  console : list string
}.

(** Before the component is on the page. *)
Definition unmounted : State := mkState [] None [] [].

Definition set_status (s : Status) (x : Html5QrcodeScanner) : Html5QrcodeScanner :=
  mkScanner (elementId x) (config x) (verbose x) s.

Fixpoint update_nth {A} (n : nat) (f : A -> A) (l : list A) : list A :=
  match n, l with
  | _, [] => []
  | O, a :: rest => f a :: rest
  | S n', a :: rest => a :: update_nth n' f rest
  end.

(** [scanner.render(onSuccess, onError)] *)
Definition render (i : nat) (st : State) : State :=
  mkState (update_nth i (set_status Scanning) (widgets st))
          (scannerRef st) (results st) (console st).

(** [scanner.clear()] *)
Definition clear (i : nat) (st : State) : State :=
  mkState (update_nth i (set_status Cleared) (widgets st))
          (scannerRef st) (results st) (console st).

(** [if (scannerRef.current) { scannerRef.current.clear(); }] *)
Definition clear_current (st : State) : State :=
  match scannerRef st with
  | Some i => clear i st
  | None => st
  end.

(** The body of the effect (lines 14-30). *)
Definition effect (st : State) : State :=
  let i := List.length (widgets st) in
  let scanner := mkScanner "qr-reader" (mkConfig 10 250 250) false Constructed in
  render i (mkState (widgets st ++ [scanner]) (Some i) (results st) (console st)).

(** The function the effect returns (lines 32-36). *)
Definition cleanup (st : State) : State := clear_current st.

(** The success callback (lines 21-26). *)
Definition onScanSuccess (decodedText : string) (st : State) : State :=
  clear_current
    (mkState (widgets st) (scannerRef st) (results st ++ [decodedText]) (console st)).

(** The error callback (lines 27-29). *)
Definition onScanError (error : string) (st : State) : State :=
  mkState (widgets st) (scannerRef st) (results st) (console st ++ [error]).

(** Widget [i] samples a frame: it calls back only while it is scanning. *)
Definition sample (i : nat) (f : Frame) (st : State) : State :=
  match nth_error (widgets st) i with
  | Some x =>
      match status x, f with
      | Scanning, Decoded text => onScanSuccess text st
      | Scanning, NotDecoded err => onScanError err st
      | _, _ => st
      end
  | None => st
  end.

Definition feed (frames : list (nat * Frame)) (st : State) : State :=
  fold_left (fun st f => sample (fst f) (snd f) st) frames st.

(** The camera is held by exactly the widgets that are scanning. *)
Definition camera_released (st : State) : Prop :=
  forall x, In x (widgets st) -> status x <> Scanning.

(** The texts that frames of widget [i] decoded, oldest first. *)
Fixpoint decoded_by (i : nat) (frames : list (nat * Frame)) : list string :=
  match frames with
  | [] => []
  | (j, Decoded text) :: rest =>
      if (j =? i)%nat then text :: decoded_by i rest else decoded_by i rest
  | (_, NotDecoded _) :: rest => decoded_by i rest
  end.

(** The errors of widget [i] up to its first decoded frame. *)
Fixpoint errors_until_decoded (i : nat) (frames : list (nat * Frame)) : list string :=
  match frames with
  | [] => []
  | (j, Decoded _) :: rest =>
      if (j =? i)%nat then [] else errors_until_decoded i rest
  | (j, NotDecoded err) :: rest =>
      if (j =? i)%nat then err :: errors_until_decoded i rest
      else errors_until_decoded i rest
  end.

(** Widget [i] is the one [scannerRef] holds and the only one scanning. *)
Definition only_scanning (i : nat) (st : State) : Prop :=
  scannerRef st = Some i
  /\ (exists x, nth_error (widgets st) i = Some x /\ status x = Scanning)
  /\ forall j x, nth_error (widgets st) j = Some x -> status x = Scanning -> j = i.

End QRScanner.

(** ** Sample collaborators, for concrete runs *)

Module Sample.

(** A browser whose images are all 50 x 50 and whose encoder takes at most
    thirty code units: up to twenty are rendered 400 pixels a side, more
    are rendered 399 a side. *)
Definition browser : Browser := {|
  readAsDataURL := fun f => ("data:image/png;base64," ++ file_name f)%string;
  decode := fun src => if truthy src then Some (50, 50) else None;
  QRCode_create := fun data _ =>
    if (List.length data <=? 20)%nat then Rendered 400
    else if (List.length data <=? 30)%nat then Rendered 399
    else Failed "The amount of data is too big to be stored in a QR Code";
  png_base64 := fun b =>
    ("png" ++ toString (bm_width b) ++ "x" ++ toString (bm_height b)
     ++ "L" ++ toString (Z.of_nat (List.length (bm_layers b))))%string
|}.

(** Some texts. *)
Definition hello : text := text_of_string "hello".

Definition world : text := text_of_string "world".

Definition space : text := text_of_string " ".

Definition ideographic_space : text := [12288%N].

Definition longer : text := text_of_string "a text of 25 code units..".

Definition too_long : text := text_of_string "a text of more than thirty code units".

Definition logo_png : File := mkFile "logo.png" 2048.

Definition huge_png : File := mkFile "huge.png" 5242881.

End Sample.

(** ** What the page shows (lines 171-272) *)

(** The parts of the rendered page that depend on the state. *)
Record View := mkView {
  (** the textarea's value (line 181) *)
  textarea_value : text;
  (** the logo preview with its Remove Logo button (lines 201-219) *)
  logo_preview_block : option string;
  (** the Generate button's [disabled] and label (lines 226, 233) *)
  generate_disabled : bool;
  generate_label : string;
  (** the error box (lines 238-242) *)
  error_box : option string;
  (** the QR image with its Download button (lines 253-269) *)
  qr_block : option string
}.

Definition Home_view (w : World) : View :=
  mkView (inputData w)
         (if truthy (logoPreview w) then Some (logoPreview w) else None)
         (loading w)
         (if loading w then "Generating..." else "Generate QR Code")
         (if truthy (error w) then Some (error w) else None)
         (if truthy (qrCode w) then Some (qrCode w) else None).

Definition is_some {A} (o : option A) : bool :=
  match o with
  | Some _ => true
  | None => false
  end.

(** An event the rendered page lets happen: a button that is not rendered
    or is disabled cannot be clicked. *)
Definition offered (e : Event) (w : World) : bool :=
  match e with
  | ClickGenerate => negb (generate_disabled (Home_view w))
  | ClickRemoveLogo => is_some (logo_preview_block (Home_view w))
  | ClickDownload _ => is_some (qr_block (Home_view w))
  | _ => true
  end.

(** Events through the rendered page; [None] when one was not offered. *)
Fixpoint ui_run `{Browser} (es : list Event) (w : World) : option World :=
  match es with
  | [] => Some w
  | e :: rest => if offered e w then ui_run rest (step e w) else None
  end.

(** The messages the handlers can put in [error]. *)
Definition handler_message (s : string) : Prop :=
  s = "Please enter data" \/ s = "Logo must be less than 5MB"
  \/ s = "Failed to generate QR code" \/ s = "No QR code to download".

(** Where [logoImg.onload] puts the logo on a canvas of a given side:
    [(side - 100) / 2], in doubles. *)
Definition overlay_offset (side : Z) : number :=
  ((num side - num 100) / num 2)%float.

(** The logo overlays of [logoImg.onload], one per image, on a square
    canvas of a given side. *)
Definition overlays (side : Z) (imgs : list Image) : list Layer :=
  map (fun img => ImageLayer img (overlay_offset side) (overlay_offset side)
                             (num 100) (num 100) []) imgs.

(** What a working canvas of a given side can hold: nothing or one QR
    rendering, and over that any number of logo overlays. *)
Definition qr_then_overlays (side : Z) (ls : list Layer) : Prop :=
  exists imgs,
    ls = overlays side imgs
    \/ exists data, ls = QRLayer data qrOptions [] :: overlays side imgs.

(** The re-activations of the scanner component and the frames sampled
    in between. *)
Module ScannerLifecycle.

Import QRScanner.

Inductive Step :=
| Rerender                       (* [onResult] changed: cleanup, then the effect *)
| Sampled (i : nat) (f : Frame). (* widget [i] sampled a frame *)

Definition lifecycle_step (st : State) (e : Step) : State :=
  match e with
  | Rerender => effect (cleanup st)
  | Sampled i f => sample i f st
  end.

Definition lifecycle (es : list Step) (st : State) : State :=
  fold_left lifecycle_step es st.

Fixpoint rerenders (es : list Step) : nat :=
  match es with
  | [] => O
  | Rerender :: rest => S (rerenders rest)
  | Sampled _ _ :: rest => rerenders rest
  end.

End ScannerLifecycle.

(** The working canvas as [QRCode.toCanvas] leaves it: a square of the
    side the encoder chose, holding the rendering alone. *)
Definition qr_canvas (data : text) (size : positive) : Canvas :=
  mkCanvas (Zpos size) (Zpos size) "#000000" [] []
           [QRLayer data qrOptions []].

(** No logo callback of [embedLogoInQRCode] is among these callbacks. *)
Definition no_logo_task (ts : list Task) : bool :=
  forallb (fun t => match t with LogoImgTask _ => false | _ => true end) ts.

(** * Properties *)

(** ** Strings *)

Lemma trimStart_whitespace_only (s : text) :
  whitespace_only s = true -> trimStart s = [].
Proof.
  induction s as [|c rest IH]; simpl; intros Hws.
  - reflexivity.
  - apply andb_true_iff in Hws as [Hc Hrest].
    rewrite Hc. now apply IH.
Qed.

Lemma trimStart_keeps_visible (s : text) :
  whitespace_only s = false ->
  exists c rest, trimStart s = c :: rest /\ is_whitespace c = false.
Proof.
  induction s as [|c rest IH]; simpl; intros Hws.
  - discriminate.
  - destruct (is_whitespace c) eqn:Hc.
    + simpl in Hws. now apply IH.
    + now exists c, rest.
Qed.

Lemma trimEnd_keeps_visible (c : code_unit) (rest : text) :
  is_whitespace c = false -> text_truthy (trimEnd (c :: rest)) = true.
Proof.
  intros Hc. simpl. destruct (trimEnd rest); [rewrite Hc|]; reflexivity.
Qed.

(** [trim] leaves nothing exactly of the strings that are all white space. *)
Lemma trim_truthy (s : text) :
  text_truthy (trim s) = negb (whitespace_only s).
Proof.
  unfold trim. destruct (whitespace_only s) eqn:Hws.
  - now rewrite trimStart_whitespace_only.
  - destruct (trimStart_keeps_visible s Hws) as (c & rest & -> & Hc).
    now apply trimEnd_keeps_visible.
Qed.

Lemma truthy_data_url `{Browser} (c : Canvas) (type : string) :
  exists rest, toDataURL c type = ("data:" ++ rest)%string.
Proof.
  unfold toDataURL.
  destruct ((canvas_width c =? 0) || (canvas_height c =? 0)).
  - now exists ",".
  - now eexists.
Qed.

(** Of the 65536 code units, [is_whitespace] holds of 25. *)
Lemma is_whitespace_count :
  snd (N.iter 65536
         (fun p => (N.succ (fst p),
                    if is_whitespace (fst p) then S (snd p) else snd p))
         (0%N, 0%nat))
  = 25%nat.
Proof. vm_compute. reflexivity. Qed.

(** ** Doubles *)

(** Rounding a non-negative mantissa never gives NaN: the shifts and the
    rounding keep the mantissa non-negative. *)
Lemma shr_1_nonneg (mrs : shr_record) :
  0 <= shr_m mrs -> 0 <= shr_m (shr_1 mrs).
Proof.
  destruct mrs as [m r s]. cbn [shr_m]. intros Hm.
  destruct m as [|p|p]; cbn; [lia| |lia].
  destruct p; cbn; lia.
Qed.

Lemma iter_pos_shr_1_nonneg (p : positive) :
  forall mrs, 0 <= shr_m mrs -> 0 <= shr_m (iter_pos shr_1 p mrs).
Proof.
  induction p as [p IH|p IH|]; intros mrs Hm; cbn [iter_pos].
  - apply IH, IH, shr_1_nonneg, Hm.
  - apply IH, IH, Hm.
  - apply shr_1_nonneg, Hm.
Qed.

Lemma shr_fexp_nonneg (m e : Z) (l : location) :
  0 <= m -> 0 <= shr_m (fst (shr_fexp prec emax m e l)).
Proof.
  intros Hm. unfold shr_fexp, shr.
  assert (H0 : 0 <= shr_m (shr_record_of_loc m l)).
  { destruct l as [|[ | | ]]; exact Hm. }
  destruct (fexp prec emax (Zdigits2 m + e) - e); cbn [fst]; try exact H0.
  now apply iter_pos_shr_1_nonneg.
Qed.

Lemma round_nearest_even_nonneg (m : Z) (l : location) :
  0 <= m -> 0 <= round_nearest_even m l.
Proof.
  intros Hm. destruct l as [|[ | | ]]; cbn; try lia.
  destruct (Z.even m); lia.
Qed.

Lemma binary_round_aux_not_nan (sx : bool) (m e : Z) (l : location) :
  0 <= m -> binary_round_aux prec emax sx m e l <> S754_nan.
Proof.
  intros Hm. unfold binary_round_aux.
  pose proof (shr_fexp_nonneg m e l Hm) as H1.
  destruct (shr_fexp prec emax m e l) as [mrs' e']. cbn [fst] in H1.
  pose proof (shr_fexp_nonneg _ e' loc_Exact
                (round_nearest_even_nonneg _ (loc_of_shr_record mrs') H1)) as H2.
  destruct (shr_fexp prec emax
              (round_nearest_even (shr_m mrs') (loc_of_shr_record mrs')) e' loc_Exact)
    as [mrs'' e'']. cbn [fst] in H2.
  destruct (shr_m mrs'') as [|p|p]; try discriminate.
  - destruct (e'' <=? emax - prec); discriminate.
  - lia.
Qed.

Lemma binary_normalize_not_nan (m e : Z) (sz : bool) :
  binary_normalize prec emax m e sz <> S754_nan.
Proof.
  destruct m as [|p|p]; cbn [binary_normalize]; try discriminate;
    unfold binary_round;
    destruct (shl_align p e (fexp prec emax (Z.pos (digits2_pos p) + e)));
    apply binary_round_aux_not_nan; lia.
Qed.

(** The double of an integer is a number. *)
Lemma num_not_nan (z : Z) : Prim2SF (num z) <> S754_nan.
Proof.
  destruct z as [|p|p]; cbn [num].
  - rewrite of_uint63_spec. apply binary_normalize_not_nan.
  - rewrite of_uint63_spec. apply binary_normalize_not_nan.
  - rewrite opp_spec, of_uint63_spec.
    pose proof (binary_normalize_not_nan
                  (Uint63.to_Z (Uint63.of_Z (Z.pos p))) 0 false) as Hn.
    destruct (binary_normalize prec emax (Uint63.to_Z (Uint63.of_Z (Z.pos p))) 0 false);
      cbn; congruence.
Qed.

Lemma SFleb_refl (s : spec_float) : s <> S754_nan -> SFleb s s = true.
Proof.
  intros Hs. destruct s as [b|b| |b m e]; try congruence; unfold SFleb; cbn.
  - reflexivity.
  - now destruct b.
  - rewrite Z.compare_refl, Pos.compare_cont_refl. now destruct b.
Qed.

(** [z <= 0 + z], in doubles, for the double of every integer. *)
Lemma leb_zero_add (z : Z) : PrimFloat.leb (num z) (num 0 + num z)%float = true.
Proof.
  rewrite leb_spec, add_spec.
  change (Prim2SF (num 0)) with (S754_zero false).
  pose proof (num_not_nan z) as Hn.
  destruct (Prim2SF (num z)) as [b|b| |b m e] eqn:E; try congruence.
  - destruct b; reflexivity.
  - apply SFleb_refl. discriminate.
  - apply SFleb_refl. discriminate.
Qed.

(** ** Validation of the text (C2) *)

(** A text that is all white space stops [embedLogoInQRCode] at its guard. *)
Lemma embedLogoInQRCode_rejected `{Browser} (w : World) :
  whitespace_only (inputData w) = true ->
  embedLogoInQRCode w
  = mkWorld (inputData w) (qrCode w) (logoPreview w) "Please enter data"
            (loading w) (logoInputRef w) (canvasRef w) (pending w) (effects w).
Proof.
  intros Hws.
  unfold embedLogoInQRCode, exec, seq, when.
  rewrite trim_truthy, Hws. reflexivity.
Qed.

(** C2. For every input text that is empty or consists of white space only,
    generation stops at the validation: the error shown is "Please enter
    data", the encoder is not called (the log of effects is as before),
    nothing is drawn on the working canvas, no callback is registered, and
    the artifact, the preview and the loading flag are as before. *)
Theorem generate_blank_input_is_rejected `{Browser} (w : World) :
  whitespace_only (inputData w) = true ->
  let w' := embedLogoInQRCode w in
  error w' = "Please enter data"
  /\ effects w' = effects w
  /\ canvasRef w' = canvasRef w
  /\ pending w' = pending w
  /\ qrCode w' = qrCode w
  /\ logoPreview w' = logoPreview w
  /\ loading w' = loading w.
Proof.
  intros Hws w'. subst w'.
  rewrite (embedLogoInQRCode_rejected w Hws).
  repeat split; reflexivity.
Qed.

(** One ideographic space (U+3000) after a generation of "hello". *)
Lemma generate_blank_input_is_rejected_witness :
  let w := @run Sample.browser
             [ChangeInput Sample.hello; ClickGenerate;
              ChangeInput Sample.ideographic_space] initial in
  whitespace_only (inputData w) = true
  /\ error (@embedLogoInQRCode Sample.browser w) = "Please enter data"
  /\ effects (@embedLogoInQRCode Sample.browser w) = effects w
  /\ canvasRef (@embedLogoInQRCode Sample.browser w) = canvasRef w.
Proof.
  intro w.
  assert (Hws : whitespace_only (inputData w) = true) by reflexivity.
  pose proof (@generate_blank_input_is_rejected Sample.browser w Hws) as E.
  cbv zeta in E. destruct E as (He & Hfx & Hcv & _).
  repeat split; assumption.
Defined.

(** ** The size ceiling of the upload (C4) *)

(** C4. A file of more than 5,242,880 bytes only changes the error shown, to
    "Logo must be less than 5MB": the preview, every other state variable,
    both refs and the effects are as before, and no callback is registered
    for the file (no reader is started, so nothing of it is processed later). *)
Theorem oversized_logo_is_rejected (w : World) (file : File) :
  file_size file > 5242880 ->
  handleLogoUpload (Some file) w
  = mkWorld (inputData w) (qrCode w) (logoPreview w) "Logo must be less than 5MB"
            (loading w) (logoInputRef w) (canvasRef w) (pending w) (effects w).
Proof.
  intros Hsize.
  unfold handleLogoUpload, exec, seq, when.
  replace (file_size file >? 5 * 1024 * 1024) with true.
  - reflexivity.
  - symmetry. apply Z.gtb_lt. lia.
Qed.

Lemma oversized_logo_is_rejected_witness :
  file_size Sample.huge_png > 5242880
  /\ logoPreview (handleLogoUpload (Some Sample.huge_png) initial) = ""
  /\ pending (handleLogoUpload (Some Sample.huge_png) initial) = []
  /\ error (handleLogoUpload (Some Sample.huge_png) initial)
     = "Logo must be less than 5MB".
Proof.
  assert (Hsize : file_size Sample.huge_png > 5242880) by (simpl; lia).
  split; [exact Hsize|].
  rewrite (oversized_logo_is_rejected initial Sample.huge_png Hsize).
  repeat split; reflexivity.
Defined.

(** ** Download *)

(** [downloadQRCode], field by field, without and with an artifact. *)
Lemma downloadQRCode_spec (w : World) (now : Z) :
  (qrCode w = "" ->
   downloadQRCode now w
   = mkWorld (inputData w) "" (logoPreview w) "No QR code to download"
             (loading w) (logoInputRef w) (canvasRef w) (pending w) (effects w))
  /\ (qrCode w <> "" ->
      downloadQRCode now w
      = mkWorld (inputData w) (qrCode w) (logoPreview w) (error w)
                (loading w) (logoInputRef w) (canvasRef w) (pending w)
                (effects w ++ [AnchorClick (qrCode w)
                                 ("qrcode-" ++ toString now ++ ".png")%string])).
Proof.
  unfold downloadQRCode, exec, seq, when.
  split; intros Hqr.
  - rewrite Hqr. simpl. now rewrite Hqr.
  - destruct (qrCode w) as [|c rest] eqn:E; [contradiction|].
    simpl. now rewrite E.
Qed.

(** ** Removing the logo (C10) *)

(** [removeLogo], field by field. *)
Lemma removeLogo_spec (w : World) :
  removeLogo w
  = mkWorld (inputData w) (qrCode w) "" (error w) (loading w)
            (match logoInputRef w with Some _ => Some "" | None => None end)
            (canvasRef w) (pending w) (effects w).
Proof.
  unfold removeLogo, exec, seq. simpl.
  destruct (logoInputRef w); reflexivity.
Qed.

(** C10. [removeLogo] empties the preview and the file input's value and
    changes nothing else: the artifact, the error, the text, the loading flag,
    the working canvas, the registered callbacks and the effects are as
    before, so a download after it exports the very artifact it would have
    exported before. *)
Theorem removeLogo_frame (w : World) :
  removeLogo w
  = mkWorld (inputData w) (qrCode w) "" (error w) (loading w)
            (match logoInputRef w with Some _ => Some "" | None => None end)
            (canvasRef w) (pending w) (effects w)
  /\ qrCode (removeLogo w) = qrCode w
  /\ error (removeLogo w) = error w
  /\ forall now, effects (downloadQRCode now (removeLogo w))
                 = effects (downloadQRCode now w).
Proof.
  pose proof (removeLogo_spec w) as E.
  split; [exact E|].
  rewrite E. cbn [qrCode error].
  split; [reflexivity|]. split; [reflexivity|].
  intros now.
  unfold downloadQRCode, exec, seq, when. simpl.
  destruct (qrCode w); reflexivity.
Qed.

(** ** The working canvas *)

Lemma covers_whole_canvas (c : Canvas) :
  Ctx.covers (num 0) (num 0) (num (canvas_width c)) (num (canvas_height c)) c = true.
Proof.
  unfold Ctx.covers. rewrite !leb_zero_add. reflexivity.
Qed.

(** Clearing the whole of an unclipped canvas leaves no layer. *)
Lemma clearRect_whole_canvas (c : Canvas) :
  clip_region c = [] ->
  Ctx.clearRect (num 0) (num 0) (num (canvas_width c)) (num (canvas_height c)) c
  = with_layers [] c.
Proof.
  intros Hclip. unfold Ctx.clearRect, with_layers.
  rewrite Hclip, covers_whole_canvas. reflexivity.
Qed.

(** Whatever the canvas held, the encoder leaves its rendering alone on
    it, at the side it chose. *)
Lemma render_qr_spec (data : text) (size : positive) (c : Canvas) :
  render_qr data qrOptions size c = qr_canvas data size.
Proof. reflexivity. Qed.

Section Generation.

Context `{Browser}.

(** What one run of [embedLogoInQRCode] does once the text is accepted. *)
Lemma embedLogoInQRCode_accepted (w : World) (c : Canvas) :
  canvasRef w = Some c ->
  clip_region c = [] ->
  whitespace_only (inputData w) = false ->
  embedLogoInQRCode w
  = match QRCode_create (inputData w) qrOptions with
    | Rendered size =>
        let c' := qr_canvas (inputData w) size in
        if truthy (logoPreview w)
        then mkWorld (inputData w) (qrCode w) (logoPreview w) "" false
                     (logoInputRef w) (Some c')
                     (pending w ++ [LogoImgTask (logoPreview w)])
                     (effects w ++ [EncoderCall (inputData w) qrOptions])
        else mkWorld (inputData w) (toDataURL c' "image/png") (logoPreview w) "" false
                     (logoInputRef w) (Some c') (pending w)
                     (effects w ++ [EncoderCall (inputData w) qrOptions])
    | Failed err =>
        mkWorld (inputData w) (qrCode w) (logoPreview w)
                "Failed to generate QR code" false
                (logoInputRef w) (Some (with_layers [] c)) (pending w)
                (effects w ++ [EncoderCall (inputData w) qrOptions;
                               ConsoleError "QR Code Generation Error:" err])
    end.
Proof.
  intros Hc Hclip Hws.
  unfold embedLogoInQRCode, exec, seq, when.
  rewrite trim_truthy, Hws. cbn [negb skip].
  unfold try_catch_finally, embedLogoInQRCode_try, QRCode_toCanvas, seq,
    return_unless_canvas, with_canvas, on_canvas, if_else.
  cbn [setLoading setError canvasRef]. rewrite Hc.
  cbn [set_canvas canvasRef emit].
  rewrite (clearRect_whole_canvas c Hclip).
  destruct (QRCode_create (inputData w) qrOptions) as [size|err].
  - cbn [canvasRef set_canvas]. rewrite render_qr_spec.
    destruct (truthy (logoPreview w)); reflexivity.
  - unfold embedLogoInQRCode_catch, seq. cbn. rewrite <- app_assoc. reflexivity.
Qed.

(** The logo's [onload] on the working canvas: one more layer, exported. *)
Lemma logoImg_onload_spec (w : World) (c : Canvas) (logoImg : Image) :
  canvasRef w = Some c ->
  let x := ((num (canvas_width c) - num 100) / num 2)%float in
  let y := ((num (canvas_height c) - num 100) / num 2)%float in
  let c' := with_layers
              (layers c ++ [ImageLayer logoImg x y (num 100) (num 100) (clip_region c)]) c in
  logoImg_onload logoImg w
  = mkWorld (inputData w) (toDataURL c' "image/png") (logoPreview w) (error w)
            (loading w) (logoInputRef w) (Some c') (pending w) (effects w).
Proof.
  intros Hc. unfold logoImg_onload, exec, seq, with_canvas, on_canvas.
  rewrite Hc. cbn [set_canvas canvasRef]. reflexivity.
Qed.

Lemma working_canvas_with_layers (w : World) (c : Canvas) (ls : list Layer) :
  working_canvas w c ->
  forall w', canvasRef w' = Some (with_layers ls c) ->
  working_canvas w' (with_layers ls c).
Proof.
  intros (_ & Hw & Hh & Hclip) w' Hc'. repeat split; assumption.
Qed.

Lemma working_canvas_qr_canvas (w' : World) (data : text) (size : positive) :
  canvasRef w' = Some (qr_canvas data size) ->
  working_canvas w' (qr_canvas data size).
Proof.
  intros Hc'. repeat split; assumption.
Qed.

Lemma working_canvas_same_ref (w w' : World) (c : Canvas) :
  canvasRef w' = canvasRef w -> working_canvas w c -> working_canvas w' c.
Proof.
  intros E (Hc & Hrest). split; [now rewrite E|exact Hrest].
Qed.

Lemma handleLogoUpload_canvasRef (file : option File) (w : World) :
  canvasRef (handleLogoUpload file (exec (picked file) w)) = canvasRef w.
Proof.
  unfold handleLogoUpload, picked, exec, seq, when.
  destruct (logoInputRef w), file as [f|]; simpl;
    try (match goal with |- context [(?a >? ?b)%Z] => destruct (a >? b)%Z end);
    reflexivity.
Qed.

Lemma handleLogoUpload_qrCode (file : option File) (w : World) :
  qrCode (handleLogoUpload file (exec (picked file) w)) = qrCode w.
Proof.
  unfold handleLogoUpload, picked, exec, seq, when.
  destruct (logoInputRef w), file as [f|]; simpl;
    try (match goal with |- context [(?a >? ?b)%Z] => destruct (a >? b)%Z end);
    reflexivity.
Qed.

Lemma toDataURL_png (c : Canvas) :
  0 < canvas_width c -> 0 < canvas_height c ->
  is_png_data_url (toDataURL c "image/png").
Proof.
  intros Hw Hh. unfold toDataURL.
  replace (canvas_width c =? 0) with false by (symmetry; apply Z.eqb_neq; lia).
  replace (canvas_height c =? 0) with false by (symmetry; apply Z.eqb_neq; lia).
  now exists (bitmap c).
Qed.

(** Every handler keeps the working canvas mounted, square and unclipped. *)
Lemma step_working_canvas (e : Event) (w : World) (c : Canvas) :
  working_canvas w c -> exists c', working_canvas (step e w) c'.
Proof.
  intros Hok. pose proof Hok as (Hc & Hw & Hh & Hclip).
  destruct e as [data|file|n| | |now]; cbn [step].
  - exists c. exact Hok.
  - exists c. apply (working_canvas_same_ref w); [|exact Hok].
    apply handleLogoUpload_canvasRef.
  - destruct (nth_error (pending w) n) as [t|]; [|exists c; exact Hok].
    destruct t as [f|src|src]; cbn [run_task].
    + exists c. exact Hok.
    + destruct (decode src) as [[iw ih]|]; exists c; exact Hok.
    + destruct (decode src) as [[iw ih]|]; [|exists c; exact Hok].
      rewrite (logoImg_onload_spec _ c) by exact Hc.
      eexists. eapply working_canvas_with_layers; [exact Hok|reflexivity].
  - destruct (whitespace_only (inputData w)) eqn:Hws.
    + exists c. rewrite embedLogoInQRCode_rejected by exact Hws. exact Hok.
    + rewrite (embedLogoInQRCode_accepted w c Hc Hclip Hws).
      destruct (QRCode_create (inputData w) qrOptions) as [size|err];
        [destruct (truthy (logoPreview w))|]; eexists.
      * apply working_canvas_qr_canvas. reflexivity.
      * apply working_canvas_qr_canvas. reflexivity.
      * eapply working_canvas_with_layers; [exact Hok|reflexivity].
  - exists c. apply (working_canvas_same_ref w); [|exact Hok].
    now rewrite removeLogo_spec.
  - exists c. apply (working_canvas_same_ref w); [|exact Hok].
    unfold downloadQRCode, exec, seq, when. destruct (truthy (qrCode w)); reflexivity.
Qed.

Lemma initial_working_canvas :
  working_canvas initial (mkCanvas 400 400 "#000000" [] [] []).
Proof. repeat split. Qed.

Lemma reachable_working_canvas (w : World) :
  reachable w -> exists c, working_canvas w c.
Proof.
  intros [es ->]. induction es as [|e es IH] using rev_ind.
  - eexists. exact initial_working_canvas.
  - destruct IH as [c Hok]. unfold run. rewrite fold_left_app. cbn [fold_left].
    exact (step_working_canvas e _ c Hok).
Qed.

(** Every handler keeps the artifact empty or a PNG data URL. *)
Lemma step_artifact_png (e : Event) (w : World) (c : Canvas) :
  working_canvas w c ->
  qrCode w = "" \/ is_png_data_url (qrCode w) ->
  qrCode (step e w) = "" \/ is_png_data_url (qrCode (step e w)).
Proof.
  intros Hok Hqr. pose proof Hok as (Hc & Hw & Hh & Hclip).
  destruct e as [data|file|n| | |now]; cbn [step].
  - exact Hqr.
  - now rewrite handleLogoUpload_qrCode.
  - destruct (nth_error (pending w) n) as [t|]; [|exact Hqr].
    destruct t as [f|src|src]; cbn [run_task].
    + exact Hqr.
    + destruct (decode src) as [[iw ih]|]; exact Hqr.
    + destruct (decode src) as [[iw ih]|]; [|exact Hqr].
      rewrite (logoImg_onload_spec _ c) by exact Hc.
      right. apply toDataURL_png; cbn [with_layers canvas_width canvas_height]; lia.
  - destruct (whitespace_only (inputData w)) eqn:Hws.
    + rewrite embedLogoInQRCode_rejected by exact Hws. exact Hqr.
    + rewrite (embedLogoInQRCode_accepted w c Hc Hclip Hws).
      destruct (QRCode_create (inputData w) qrOptions) as [size|err];
        [destruct (truthy (logoPreview w))|]; try exact Hqr.
      right. apply toDataURL_png; reflexivity.
  - rewrite removeLogo_spec. exact Hqr.
  - destruct (string_dec (qrCode w) "") as [E|E].
    + rewrite (proj1 (downloadQRCode_spec w now) E). now left.
    + rewrite (proj2 (downloadQRCode_spec w now) E). exact Hqr.
Qed.

Lemma reachable_artifact_png (w : World) :
  reachable w -> qrCode w = "" \/ is_png_data_url (qrCode w).
Proof.
  intros [es ->].
  assert (Hboth : (exists c, working_canvas (run es initial) c)
                  /\ (qrCode (run es initial) = ""
                      \/ is_png_data_url (qrCode (run es initial)))).
  { induction es as [|e es IH] using rev_ind.
    - split; [eexists; exact initial_working_canvas|now left].
    - destruct IH as [[c Hok] Hqr]. unfold run. rewrite fold_left_app.
      cbn [fold_left].
      split; [exact (step_working_canvas e _ c Hok)|].
      exact (step_artifact_png e _ c Hok Hqr). }
  exact (proj2 Hboth).
Qed.

End Generation.

(** ** Download (C7) *)

(** C7. With no artifact ([qrCode] empty) a download only sets the error to
    "No QR code to download" and no link is clicked, so no file is made; with
    an artifact the state is untouched and one link is clicked, whose file
    name is qrcode-<now>.png and whose target is the artifact, which in every
    state the page can reach is a PNG data URL. *)
Theorem download_needs_an_artifact `{Browser} (w : World) (now : Z) :
  (qrCode w = "" ->
   downloadQRCode now w
   = mkWorld (inputData w) "" (logoPreview w) "No QR code to download"
             (loading w) (logoInputRef w) (canvasRef w) (pending w) (effects w))
  /\ (qrCode w <> "" ->
      downloadQRCode now w
      = mkWorld (inputData w) (qrCode w) (logoPreview w) (error w)
                (loading w) (logoInputRef w) (canvasRef w) (pending w)
                (effects w ++ [AnchorClick (qrCode w)
                                 ("qrcode-" ++ toString now ++ ".png")%string])
      /\ (reachable w -> is_png_data_url (qrCode w))).
Proof.
  destruct (downloadQRCode_spec w now) as [Hnone Hsome].
  split; [exact Hnone|].
  intros Hqr. split; [exact (Hsome Hqr)|].
  intros Hreach. destruct (reachable_artifact_png w Hreach) as [E|Hpng].
  - contradiction.
  - exact Hpng.
Qed.

Lemma download_needs_an_artifact_witness :
  let w := @run Sample.browser [ChangeInput Sample.hello; ClickGenerate] initial in
  downloadQRCode 1730000000000 initial
  = mkWorld [] "" "" "No QR code to download" false (Some "")
            (canvasRef initial) [] []
  /\ (qrCode w <> "" /\ @reachable Sample.browser w)
  /\ effects (downloadQRCode 1730000000000 w)
     = [EncoderCall Sample.hello qrOptions;
        AnchorClick "data:image/png;base64,png400x400L1" "qrcode-1730000000000.png"]
  /\ @is_png_data_url Sample.browser (qrCode w).
Proof.
  intro w.
  assert (Hqr : qrCode w <> "") by (vm_compute; discriminate).
  assert (Hreach : @reachable Sample.browser w) by (eexists; reflexivity).
  destruct (@download_needs_an_artifact Sample.browser initial 1730000000000)
    as [Hnone _].
  destruct (@download_needs_an_artifact Sample.browser w 1730000000000)
    as [_ Hsome].
  destruct (Hsome Hqr) as [Hclick Hpng].
  split; [exact (Hnone eq_refl)|].
  split; [split; [exact Hqr|exact Hreach]|].
  split; [rewrite Hclick; vm_compute; reflexivity|exact (Hpng Hreach)].
Defined.

Section GenerationClaims.

Context `{Browser}.

Lemma reachable_step (e : Event) (w : World) :
  reachable w -> reachable (step e w).
Proof.
  intros [es ->]. exists (es ++ [e]).
  unfold run. now rewrite fold_left_app.
Qed.

(** Whatever the [try] block does, the [finally] block clears the flag. *)
Lemma finally_clears_loading (body : Stmt) (handler : string -> Stmt) (w : World) :
  loading (snd (try_catch_finally body handler (setLoading false) w)) = false.
Proof.
  unfold try_catch_finally.
  destruct (body w) as [c1 w1].
  destruct c1 as [| |err]; try reflexivity.
  destruct (handler err w1) as [c2 w2]. reflexivity.
Qed.

Lemma embedLogoInQRCode_clears_loading (w : World) :
  whitespace_only (inputData w) = false ->
  loading (embedLogoInQRCode w) = false.
Proof.
  intros Hws. unfold embedLogoInQRCode, exec, seq, when.
  rewrite trim_truthy, Hws. simpl.
  apply finally_clears_loading.
Qed.

(** The [try] block on a mounted canvas when the encoder throws. *)
Lemma embedLogoInQRCode_try_throws (w : World) (c : Canvas) (err : string) :
  canvasRef w = Some c ->
  QRCode_create (inputData w) qrOptions = Failed err ->
  exists w1,
    embedLogoInQRCode_try (inputData w) (logoPreview w) w = (Throw err, w1)
    /\ loading w1 = true /\ qrCode w1 = qrCode w.
Proof.
  intros Hc Herr.
  unfold embedLogoInQRCode_try, QRCode_toCanvas, seq, return_unless_canvas,
    with_canvas, on_canvas.
  simpl. rewrite Hc. simpl. rewrite Herr. simpl.
  eexists. repeat split.
Qed.

(** ** Generation of an accepted text (C1) *)

(** C1, as amended.  In every state the page can reach, for a text that has
    a code unit other than white space and that the encoder takes, a run of
    generation clears the error and the loading flag and produces a non-empty
    artifact, a data URL: at once when there is no logo, and with a logo when
    the logo image's load callback, which the run registers, fires. *)
Theorem generate_accepted_text (w : World) (size : positive) :
  reachable w ->
  whitespace_only (inputData w) = false ->
  QRCode_create (inputData w) qrOptions = Rendered size ->
  let w' := embedLogoInQRCode w in
  error w' = "" /\ loading w' = false
  /\ (logoPreview w = "" ->
      exists rest, qrCode w' = ("data:" ++ rest)%string)
  /\ (logoPreview w <> "" ->
      pending w' = pending w ++ [LogoImgTask (logoPreview w)]
      /\ forall logoImg,
           error (logoImg_onload logoImg w') = ""
           /\ exists rest, qrCode (logoImg_onload logoImg w') = ("data:" ++ rest)%string).
Proof.
  intros Hreach Hws Henc w'. subst w'.
  destruct (reachable_working_canvas w Hreach) as (c & Hc & _ & _ & Hclip).
  rewrite (embedLogoInQRCode_accepted w c Hc Hclip Hws), Henc. cbv zeta.
  destruct (logoPreview w) as [|a rest] eqn:Hlogo;
    cbn [truthy error loading pending qrCode].
  - split; [reflexivity|]. split; [reflexivity|]. split.
    + intros _. apply truthy_data_url.
    + intros Habs. now contradiction Habs.
  - split; [reflexivity|]. split; [reflexivity|]. split.
    + discriminate.
    + intros _. split; [reflexivity|]. intros logoImg.
      erewrite logoImg_onload_spec by reflexivity.
      cbn [error qrCode]. split; [reflexivity|apply truthy_data_url].
Qed.

(** ** Failure of the encoder (C5) *)

(** C5, as amended.  In every state the page can reach, when the encoder
    throws on the text: the [try] block ends by that throw with the loading
    flag set and the artifact untouched; the handler catches it, logs it,
    shows "Failed to generate QR code", does not set the artifact, which
    keeps the value it had (empty if it was empty, the artifact of an earlier
    run otherwise), registers no callback, and ends with the loading flag
    cleared.  The flag is cleared at the end of every run that passes the
    validation, whatever the state and the encoder's outcome. *)
Theorem generate_encoder_failure (w : World) (err : string) :
  reachable w ->
  whitespace_only (inputData w) = false ->
  QRCode_create (inputData w) qrOptions = Failed err ->
  let w' := embedLogoInQRCode w in
  (exists w1,
     embedLogoInQRCode_try (inputData w) (logoPreview w) w = (Throw err, w1)
     /\ loading w1 = true /\ qrCode w1 = qrCode w)
  /\ error w' = "Failed to generate QR code"
  /\ qrCode w' = qrCode w
  /\ (qrCode w = "" -> qrCode w' = "")
  /\ loading w' = false
  /\ pending w' = pending w
  /\ effects w' = effects w ++ [EncoderCall (inputData w) qrOptions;
                                ConsoleError "QR Code Generation Error:" err]
  /\ (forall v : World,
        whitespace_only (inputData v) = false -> loading (embedLogoInQRCode v) = false).
Proof.
  intros Hreach Hws Henc w'. subst w'.
  destruct (reachable_working_canvas w Hreach) as (c & Hc & _ & _ & Hclip).
  split; [exact (embedLogoInQRCode_try_throws w c err Hc Henc)|].
  rewrite (embedLogoInQRCode_accepted w c Hc Hclip Hws), Henc. simpl.
  split; [reflexivity|]. split; [reflexivity|]. split; [intros E; exact E|].
  split; [reflexivity|]. split; [reflexivity|]. split; [reflexivity|].
  exact embedLogoInQRCode_clears_loading.
Qed.

End GenerationClaims.

Lemma generate_accepted_text_witness :
  let w := @run Sample.browser [ChangeInput Sample.hello] initial in
  @reachable Sample.browser w
  /\ whitespace_only (inputData w) = false
  /\ @QRCode_create Sample.browser (inputData w) qrOptions = Rendered 400
  /\ error (@embedLogoInQRCode Sample.browser w) = ""
  /\ exists rest, qrCode (@embedLogoInQRCode Sample.browser w) = ("data:" ++ rest)%string.
Proof.
  intro w.
  assert (Hreach : @reachable Sample.browser w)
    by (exists [ChangeInput Sample.hello]; reflexivity).
  assert (Hws : whitespace_only (inputData w) = false) by reflexivity.
  assert (Henc : @QRCode_create Sample.browser (inputData w) qrOptions = Rendered 400)
    by reflexivity.
  destruct (@generate_accepted_text Sample.browser w 400 Hreach Hws Henc)
    as (Herr & _ & Hnologo & _).
  repeat split; try assumption.
  apply Hnologo. reflexivity.
Defined.

(** C1, as stated, fails at the text " " (one space): its length is 1 and
    the sample encoder takes it, yet a run of generation on the page as first
    rendered leaves the artifact empty and shows "Please enter data".  So the
    claim does not hold of every text of positive length within capacity. *)
Lemma generate_length_is_not_enough :
  let w := @run Sample.browser [ChangeInput Sample.space] initial in
  (inputData w = [32%N]
   /\ List.length (inputData w) = 1%nat
   /\ @QRCode_create Sample.browser (inputData w) qrOptions = Rendered 400
   /\ qrCode (@embedLogoInQRCode Sample.browser w) = ""
   /\ error (@embedLogoInQRCode Sample.browser w) = "Please enter data")
  /\ ~ (forall (B : Browser) (v : World) (size : positive),
          @reachable B v ->
          (0 < List.length (inputData v))%nat ->
          @QRCode_create B (inputData v) qrOptions = Rendered size ->
          truthy (qrCode (@embedLogoInQRCode B v)) = true
          /\ error (@embedLogoInQRCode B v) = "").
Proof.
  intro w. split.
  - repeat split; vm_compute; reflexivity.
  - intros Hclaim.
    assert (Hreach : @reachable Sample.browser w)
      by (exists [ChangeInput Sample.space]; reflexivity).
    assert (Hlen : (0 < List.length (inputData w))%nat) by (vm_compute; lia).
    destruct (Hclaim Sample.browser w 400%positive Hreach Hlen eq_refl) as [Hqr _].
    vm_compute in Hqr. discriminate Hqr.
Qed.

Lemma generate_encoder_failure_witness :
  let w := @run Sample.browser
             [ChangeInput Sample.hello; ClickGenerate;
              ChangeInput Sample.too_long] initial in
  @reachable Sample.browser w
  /\ whitespace_only (inputData w) = false
  /\ @QRCode_create Sample.browser (inputData w) qrOptions
     = Failed "The amount of data is too big to be stored in a QR Code"
  /\ error (@embedLogoInQRCode Sample.browser w) = "Failed to generate QR code"
  /\ qrCode (@embedLogoInQRCode Sample.browser w) = qrCode w
  /\ loading (@embedLogoInQRCode Sample.browser w) = false.
Proof.
  intro w.
  assert (Hreach : @reachable Sample.browser w) by (eexists; reflexivity).
  assert (Hws : whitespace_only (inputData w) = false) by reflexivity.
  assert (Henc : @QRCode_create Sample.browser (inputData w) qrOptions
                 = Failed "The amount of data is too big to be stored in a QR Code")
    by reflexivity.
  destruct (@generate_encoder_failure Sample.browser w _ Hreach Hws Henc)
    as (_ & Herr & Hqr & _ & Hload & _).
  repeat split; assumption.
Defined.

(** C5, as stated, fails after a successful generation: "hello" is
    generated, then a text beyond the sample encoder's capacity; the run
    fails and shows its error, and the artifact is still the one of "hello",
    not unset.  So the artifact is not unset after every failing run. *)
Lemma failed_generation_keeps_the_old_artifact :
  let w := @run Sample.browser
             [ChangeInput Sample.hello; ClickGenerate;
              ChangeInput Sample.too_long] initial in
  (@QRCode_create Sample.browser (inputData w) qrOptions
   = Failed "The amount of data is too big to be stored in a QR Code"
   /\ error (@embedLogoInQRCode Sample.browser w) = "Failed to generate QR code"
   /\ qrCode (@embedLogoInQRCode Sample.browser w)
      = "data:image/png;base64,png400x400L1"
   /\ qr_block (Home_view (@embedLogoInQRCode Sample.browser w))
      = Some "data:image/png;base64,png400x400L1")
  /\ ~ (forall (B : Browser) (v : World) (err : string),
          @reachable B v ->
          whitespace_only (inputData v) = false ->
          @QRCode_create B (inputData v) qrOptions = Failed err ->
          qrCode (@embedLogoInQRCode B v) = "").
Proof.
  intro w. split.
  - repeat split; vm_compute; reflexivity.
  - intros Hclaim.
    assert (Hreach : @reachable Sample.browser w) by (eexists; reflexivity).
    assert (Hws : whitespace_only (inputData w) = false) by reflexivity.
    pose proof (Hclaim Sample.browser w _ Hreach Hws eq_refl) as Hqr.
    vm_compute in Hqr. discriminate Hqr.
Qed.

(** ** What generation leaves alone (C6) *)

Section Frame.

Context `{Browser}.

Lemma keeps_logo_seq (a b : Stmt) :
  keeps_logo a -> keeps_logo b -> keeps_logo (a ;; b).
Proof.
  intros Ha Hb w. unfold seq.
  specialize (Ha w). destruct (a w) as [c w1]. simpl in Ha.
  destruct Ha as (Hp & Hi & added & Hq).
  destruct c as [| |err]; simpl.
  - specialize (Hb w1). destruct Hb as (Hp' & Hi' & added' & Hq').
    split; [congruence|]. split; [congruence|].
    exists (added ++ added'). rewrite Hq', Hq. now rewrite app_assoc.
  - split; [assumption|]. split; [assumption|]. now exists added.
  - split; [assumption|]. split; [assumption|]. now exists added.
Qed.

Lemma keeps_logo_try (body : Stmt) (handler : string -> Stmt) (final : Stmt) :
  keeps_logo body -> (forall err, keeps_logo (handler err)) -> keeps_logo final ->
  keeps_logo (try_catch_finally body handler final).
Proof.
  intros Hb Hh Hf w. unfold try_catch_finally.
  specialize (Hb w). destruct (body w) as [c1 w1]. simpl in Hb.
  destruct Hb as (Hp & Hi & added & Hq).
  assert (Hmid : forall c2 w2,
             logoPreview w2 = logoPreview w /\ logoInputRef w2 = logoInputRef w
             /\ (exists l, pending w2 = pending w ++ l) ->
             let r := match final w2 with
                      | (Normal, w3) => (c2, w3)
                      | abrupt => abrupt
                      end in
             logoPreview (snd r) = logoPreview w /\ logoInputRef (snd r) = logoInputRef w
             /\ exists l, pending (snd r) = pending w ++ l).
  { intros c2 w2 (Hp2 & Hi2 & l & Hq2). specialize (Hf w2).
    destruct (final w2) as [cf w3]. simpl in Hf.
    destruct Hf as (Hp3 & Hi3 & l3 & Hq3).
    assert (Hres : logoPreview w3 = logoPreview w /\ logoInputRef w3 = logoInputRef w
                   /\ exists l', pending w3 = pending w ++ l').
    { repeat split; try congruence.
      exists (l ++ l3). rewrite Hq3, Hq2. now rewrite app_assoc. }
    destruct cf; exact Hres. }
  destruct c1 as [| |err].
  - apply Hmid. eauto.
  - apply Hmid. eauto.
  - specialize (Hh err w1). destruct (handler err w1) as [c2 w2]. simpl in Hh.
    destruct Hh as (Hp2 & Hi2 & l2 & Hq2).
    apply Hmid. repeat split; try congruence.
    exists (added ++ l2). rewrite Hq2, Hq. now rewrite app_assoc.
Qed.

Lemma keeps_logo_same (s : Stmt) :
  (forall w, logoPreview (snd (s w)) = logoPreview w
             /\ logoInputRef (snd (s w)) = logoInputRef w
             /\ pending (snd (s w)) = pending w) ->
  keeps_logo s.
Proof.
  intros Hs w. destruct (Hs w) as (Hp & Hi & Hq).
  repeat split; try assumption. exists []. now rewrite app_nil_r.
Qed.

Lemma keeps_logo_with_canvas (k : Canvas -> Stmt) :
  (forall c, keeps_logo (k c)) -> keeps_logo (with_canvas k).
Proof.
  intros Hk w. unfold with_canvas. destruct (canvasRef w) as [c|].
  - apply Hk.
  - repeat split. exists []. now rewrite app_nil_r.
Qed.

Lemma keeps_logo_on_canvas (draw : Canvas -> Canvas) : keeps_logo (on_canvas draw).
Proof.
  apply keeps_logo_same. intros w. unfold on_canvas.
  destruct (canvasRef w); repeat split.
Qed.

Lemma keeps_logo_schedule (t : Task) : keeps_logo (schedule t).
Proof. intros w. repeat split. now exists [t]. Qed.

Lemma keeps_logo_try_block (data : text) (logo : string) :
  keeps_logo (embedLogoInQRCode_try data logo).
Proof.
  unfold embedLogoInQRCode_try, QRCode_toCanvas, if_else.
  repeat apply keeps_logo_seq;
    try solve [apply keeps_logo_same; intros w; repeat split; reflexivity].
  - apply keeps_logo_same. intros w. unfold return_unless_canvas.
    destruct (canvasRef w); repeat split.
  - apply keeps_logo_with_canvas. intros c. apply keeps_logo_on_canvas.
  - destruct (QRCode_create data qrOptions).
    + apply keeps_logo_on_canvas.
    + apply keeps_logo_same. intros w. repeat split.
  - destruct (truthy logo).
    + apply keeps_logo_schedule.
    + apply keeps_logo_with_canvas. intros c.
      apply keeps_logo_same. intros w. repeat split.
Qed.

Lemma keeps_logo_embedLogoInQRCode (w : World) :
  logoPreview (embedLogoInQRCode w) = logoPreview w
  /\ logoInputRef (embedLogoInQRCode w) = logoInputRef w
  /\ exists added, pending (embedLogoInQRCode w) = pending w ++ added.
Proof.
  unfold embedLogoInQRCode, exec.
  apply keeps_logo_seq.
  - unfold when. destruct (negb (text_truthy (trim (inputData w)))).
    + apply keeps_logo_same. intros v. repeat split.
    + apply keeps_logo_same. intros v. repeat split.
  - apply keeps_logo_try.
    + apply keeps_logo_try_block.
    + intros err. apply keeps_logo_same. intros v. repeat split.
    + apply keeps_logo_same. intros v. repeat split.
Qed.

Lemma keeps_logo_logoImg_onload (logoImg : Image) (w : World) :
  logoPreview (logoImg_onload logoImg w) = logoPreview w
  /\ logoInputRef (logoImg_onload logoImg w) = logoInputRef w
  /\ pending (logoImg_onload logoImg w) = pending w.
Proof.
  unfold logoImg_onload, exec, seq, with_canvas, on_canvas.
  destruct (canvasRef w) as [c|] eqn:Hc; simpl; [|rewrite Hc]; repeat split.
Qed.

End Frame.

Section FrameClaims.

Context `{Browser}.

(** C6. A run of generation, and the logo callback that completes it, leave
    the logo preview, the file input and every callback registered before
    (a file being read among them) as they were.  In every state the page can
    reach, a run on a text that passes the validation calls the encoder once
    more, on that text, and nothing painted before the run is left on the
    working canvas: it holds the fresh QR rendering alone (nothing when the
    encoder throws). *)
Theorem generation_keeps_logo_and_recomputes (w : World) :
  let w' := embedLogoInQRCode w in
  (logoPreview w' = logoPreview w
   /\ logoInputRef w' = logoInputRef w
   /\ exists added, pending w' = pending w ++ added)
  /\ (forall logoImg,
        logoPreview (logoImg_onload logoImg w') = logoPreview w
        /\ logoInputRef (logoImg_onload logoImg w') = logoInputRef w
        /\ pending (logoImg_onload logoImg w') = pending w')
  /\ (reachable w ->
      whitespace_only (inputData w) = false ->
      effects w'
      = effects w ++ EncoderCall (inputData w) qrOptions
          :: match QRCode_create (inputData w) qrOptions with
             | Rendered _ => []
             | Failed err => [ConsoleError "QR Code Generation Error:" err]
             end
      /\ exists c',
           canvasRef w' = Some c'
           /\ layers c' = match QRCode_create (inputData w) qrOptions with
                          | Rendered _ => [QRLayer (inputData w) qrOptions []]
                          | Failed _ => []
                          end).
Proof.
  intros w'. subst w'.
  split; [apply keeps_logo_embedLogoInQRCode|].
  split.
  - intros logoImg.
    destruct (keeps_logo_logoImg_onload logoImg (embedLogoInQRCode w)) as (Hp & Hi & Hq).
    destruct (keeps_logo_embedLogoInQRCode w) as (Hp' & Hi' & _).
    split; [congruence|]. split; [congruence|exact Hq].
  - intros Hreach Hws.
    destruct (reachable_working_canvas w Hreach) as (c & Hc & _ & _ & Hclip).
    rewrite (embedLogoInQRCode_accepted w c Hc Hclip Hws).
    destruct (QRCode_create (inputData w) qrOptions) as [size|err].
    + cbv zeta. destruct (truthy (logoPreview w)); cbn [effects canvasRef];
        (split; [reflexivity|]); eexists; split; reflexivity.
    + cbn [effects canvasRef]. split; [reflexivity|].
      eexists; split; reflexivity.
Qed.

(** ** Generation after the logo was removed (C9) *)

Lemma forallb_nth_error {A} (f : A -> bool) (l : list A) (n : nat) (a : A) :
  forallb f l = true -> nth_error l n = Some a -> f a = true.
Proof.
  intros Hall Hn. apply nth_error_In in Hn.
  exact (proj1 (forallb_forall f l) Hall a Hn).
Qed.

Lemma forallb_remove_nth {A} (f : A -> bool) (l : list A) (n : nat) :
  forallb f l = true -> forallb f (remove_nth n l) = true.
Proof.
  revert n. induction l as [|a l IH]; intros n; cbn [forallb]; [now destruct n|].
  intros Hall. apply andb_true_iff in Hall as [Ha Hl].
  destruct n as [|n]; cbn [remove_nth forallb]; [exact Hl|].
  now rewrite Ha, IH.
Qed.

(** A callback of the upload path leaves the artifact and the working
    canvas alone, and registers no logo callback. *)
Lemma fire_without_logo_task (n : nat) (w : World) :
  no_logo_task (pending w) = true ->
  qrCode (step (Fire n) w) = qrCode w
  /\ canvasRef (step (Fire n) w) = canvasRef w
  /\ no_logo_task (pending (step (Fire n) w)) = true.
Proof.
  intros Hno. cbn [step].
  destruct (nth_error (pending w) n) as [t|] eqn:Hn; [|now repeat split].
  pose proof (forallb_nth_error _ _ _ _ Hno Hn) as Ht.
  pose proof (forallb_remove_nth _ _ n Hno) as Hrest.
  destruct t as [f|src|src]; [| |discriminate Ht]; cbn [run_task].
  - split; [reflexivity|]. split; [reflexivity|].
    unfold reader_onload, exec, schedule, no_logo_task.
    cbn [snd set_pending pending]. rewrite forallb_app.
    fold (no_logo_task (remove_nth n (pending w))).
    unfold no_logo_task at 1. now rewrite Hrest.
  - destruct (decode src) as [[iw ih]|]; repeat split; exact Hrest.
Qed.

Lemma fires_without_logo_task (ns : list nat) :
  forall w, no_logo_task (pending w) = true ->
  qrCode (run (map Fire ns) w) = qrCode w
  /\ canvasRef (run (map Fire ns) w) = canvasRef w.
Proof.
  induction ns as [|n ns IH]; intros w Hno; cbn [map run fold_left].
  - now split.
  - destruct (fire_without_logo_task n w Hno) as (Hq & Hc & Hno').
    destruct (IH _ Hno') as (Hq' & Hc'). fold (run (map Fire ns) (step (Fire n) w)).
    split; congruence.
Qed.

(** C9, as amended.  In every state the page can reach (so also after a
    successful upload, and after a generation that composited the logo),
    removing the logo empties the preview; and for a text that passes the
    validation and that the encoder takes, generation after the removal sets
    the same artifact, the export of the same square bitmap holding the QR
    rendering and no overlay, as generation of that text in any reachable
    state with no logo, and registers no logo callback.  When no logo
    callback of an earlier generation is pending at the removal, the
    artifact and the canvas stay so whatever callbacks fire afterwards. *)
Theorem generation_after_removeLogo (w1 w0 : World) (data : text) (size : positive) :
  reachable w1 -> reachable w0 -> logoPreview w0 = "" ->
  whitespace_only data = false ->
  QRCode_create data qrOptions = Rendered size ->
  let after_removal := embedLogoInQRCode (step (ChangeInput data) (removeLogo w1)) in
  let never_uploaded := embedLogoInQRCode (step (ChangeInput data) w0) in
  logoPreview (removeLogo w1) = ""
  /\ qrCode after_removal = qrCode never_uploaded
  /\ (exists rest, qrCode after_removal = ("data:" ++ rest)%string)
  /\ (exists c1 c0,
        canvasRef after_removal = Some c1 /\ canvasRef never_uploaded = Some c0
        /\ bitmap c1 = mkBitmap (Zpos size) (Zpos size) [QRLayer data qrOptions []]
        /\ bitmap c0 = bitmap c1
        /\ existsb is_overlay (layers c1) = false)
  /\ pending after_removal = pending w1
  /\ (no_logo_task (pending w1) = true ->
      forall ns,
        qrCode (run (map Fire ns) after_removal) = qrCode after_removal
        /\ canvasRef (run (map Fire ns) after_removal) = canvasRef after_removal).
Proof.
  intros Hreach1 Hreach0 Hnologo Hws Henc after_removal never_uploaded.
  assert (Hr1 : reachable (step (ChangeInput data) (removeLogo w1))).
  { apply reachable_step. exact (reachable_step ClickRemoveLogo w1 Hreach1). }
  assert (Hr0 : reachable (step (ChangeInput data) w0))
    by (apply reachable_step; exact Hreach0).
  destruct (reachable_working_canvas _ Hr1) as (c1 & Hc1 & _ & _ & Hclip1).
  destruct (reachable_working_canvas _ Hr0) as (c0 & Hc0 & _ & _ & Hclip0).
  assert (E1 : after_removal
               = mkWorld data (toDataURL (qr_canvas data size) "image/png") "" ""
                   false
                   (match logoInputRef w1 with Some _ => Some "" | None => None end)
                   (Some (qr_canvas data size)) (pending w1)
                   (effects w1 ++ [EncoderCall data qrOptions])).
  { subst after_removal.
    rewrite (embedLogoInQRCode_accepted _ c1 Hc1 Hclip1 Hws).
    cbn [step exec setInputData snd inputData logoPreview].
    rewrite Henc, removeLogo_spec. reflexivity. }
  assert (E0 : qrCode never_uploaded = toDataURL (qr_canvas data size) "image/png"
               /\ canvasRef never_uploaded = Some (qr_canvas data size)).
  { subst never_uploaded.
    rewrite (embedLogoInQRCode_accepted _ c0 Hc0 Hclip0 Hws).
    cbn [step exec setInputData snd inputData logoPreview].
    rewrite Henc, Hnologo. split; reflexivity. }
  destruct E0 as (Eq0 & Ec0).
  split; [now rewrite removeLogo_spec|].
  split; [now rewrite E1, Eq0|].
  split; [rewrite E1; apply truthy_data_url|].
  split.
  { exists (qr_canvas data size), (qr_canvas data size).
    rewrite E1, Ec0. repeat split. }
  split; [now rewrite E1|].
  intros Hno ns. apply fires_without_logo_task.
  now rewrite E1.
Qed.

End FrameClaims.

(** A world that has a logo and an artifact composited with it. *)
Lemma generation_keeps_logo_and_recomputes_witness :
  let w := @run Sample.browser
             [ChooseFile (Some Sample.logo_png); Fire 0; Fire 0;
              ChangeInput Sample.hello; ClickGenerate; Fire 0;
              ChangeInput Sample.world] initial in
  @reachable Sample.browser w
  /\ whitespace_only (inputData w) = false
  /\ logoPreview (@embedLogoInQRCode Sample.browser w) = logoPreview w
  /\ effects (@embedLogoInQRCode Sample.browser w)
     = [EncoderCall Sample.hello qrOptions; EncoderCall Sample.world qrOptions]
  /\ exists c', canvasRef (@embedLogoInQRCode Sample.browser w) = Some c'
                /\ layers c' = [QRLayer Sample.world qrOptions []].
Proof.
  intro w.
  assert (Hreach : @reachable Sample.browser w) by (eexists; reflexivity).
  assert (Hws : whitespace_only (inputData w) = false) by reflexivity.
  destruct (@generation_keeps_logo_and_recomputes Sample.browser w)
    as ((Hp & _) & _ & Hfresh).
  destruct (Hfresh Hreach Hws) as (Hfx & c' & Hc' & Hlayers).
  split; [exact Hreach|]. split; [exact Hws|]. split; [exact Hp|]. split.
  - rewrite Hfx. vm_compute. reflexivity.
  - exists c'. split; [exact Hc'|]. rewrite Hlayers. vm_compute. reflexivity.
Defined.

(** After an upload and a completed generation with the overlay, against
    the page as first rendered. *)
Lemma generation_after_removeLogo_witness :
  let w1 := @run Sample.browser
              [ChooseFile (Some Sample.logo_png); Fire 0; Fire 0;
               ChangeInput Sample.hello; ClickGenerate; Fire 0] initial in
  (@reachable Sample.browser w1 /\ @reachable Sample.browser initial)
  /\ (logoPreview w1 <> "" /\ logoPreview initial = "")
  /\ whitespace_only Sample.longer = false
  /\ @QRCode_create Sample.browser Sample.longer qrOptions = Rendered 399
  /\ no_logo_task (pending w1) = true
  /\ qrCode w1 = "data:image/png;base64,png400x400L2"
  /\ qrCode (@embedLogoInQRCode Sample.browser
               (@step Sample.browser (ChangeInput Sample.longer) (removeLogo w1)))
     = qrCode (@embedLogoInQRCode Sample.browser
                 (@step Sample.browser (ChangeInput Sample.longer) initial)).
Proof.
  intro w1.
  assert (Hreach1 : @reachable Sample.browser w1) by (eexists; reflexivity).
  assert (Hreach0 : @reachable Sample.browser initial) by (exists []; reflexivity).
  assert (Hws : whitespace_only Sample.longer = false) by reflexivity.
  assert (Henc : @QRCode_create Sample.browser Sample.longer qrOptions = Rendered 399)
    by reflexivity.
  destruct (@generation_after_removeLogo Sample.browser w1 initial Sample.longer 399
              Hreach1 Hreach0 eq_refl Hws Henc) as (_ & Hsame & _).
  split; [split; [exact Hreach1|exact Hreach0]|].
  split; [split; [vm_compute; discriminate|reflexivity]|].
  split; [exact Hws|]. split; [exact Henc|].
  split; [vm_compute; reflexivity|].
  split; [vm_compute; reflexivity|exact Hsame].
Defined.

(** C9, as stated, fails when a generation with the logo is still waiting
    for the logo image at the removal: after the upload, "hello" is
    generated and the logo is removed before the logo callback fires; the
    generation after the removal sets the artifact without overlay, and the
    callback that fires next draws the removed logo over it and replaces the
    artifact, which then differs from the one of a page that never had a
    logo. *)
Lemma stale_logo_callback_overlays_after_removal :
  let w1 := @run Sample.browser
              [ChooseFile (Some Sample.logo_png); Fire 0; Fire 0;
               ChangeInput Sample.hello; ClickGenerate] initial in
  let after_removal := @embedLogoInQRCode Sample.browser
                         (@step Sample.browser (ChangeInput Sample.hello)
                            (removeLogo w1)) in
  let later := @step Sample.browser (Fire 0) after_removal in
  let never_uploaded := @embedLogoInQRCode Sample.browser
                          (@step Sample.browser (ChangeInput Sample.hello) initial) in
  @reachable Sample.browser w1
  /\ logoPreview (removeLogo w1) = ""
  /\ pending after_removal = [LogoImgTask "data:image/png;base64,png100x100L2"]
  /\ logoPreview later = ""
  /\ qrCode later = "data:image/png;base64,png400x400L2"
  /\ qrCode never_uploaded = "data:image/png;base64,png400x400L1"
  /\ option_map (fun c => existsb is_overlay (layers c)) (canvasRef later)
     = Some true
  /\ qrCode later <> qrCode never_uploaded.
Proof.
  intros w1 after_removal later never_uploaded.
  split; [eexists; reflexivity|].
  repeat split; try (vm_compute; reflexivity).
  vm_compute. discriminate.
Qed.

(** ** The logo preprocessor (C3) *)



(** ** The scanner (C8) *)

Module ScannerFacts.

Import QRScanner.

Lemma nth_error_update_nth {A} (f : A -> A) (l : list A) (i j : nat) :
  nth_error (update_nth i f l) j
  = if (j =? i)%nat then option_map f (nth_error l j) else nth_error l j.
Proof.
  revert i j. induction l as [|a l IH]; intros i j.
  - destruct i, j; simpl; try reflexivity; now destruct (j =? i)%nat.
  - destruct i as [|i], j as [|j]; simpl; try reflexivity. apply IH.
Qed.

Lemma camera_released_nth (st : State) :
  camera_released st
  <-> forall j x, nth_error (widgets st) j = Some x -> status x <> Scanning.
Proof.
  unfold camera_released. split.
  - intros Hrel j x Hj. apply Hrel. exact (nth_error_In _ _ Hj).
  - intros Hrel x Hin. destruct (In_nth_error _ _ Hin) as [j Hj].
    exact (Hrel j x Hj).
Qed.

(** A widget that is not scanning does not call back. *)
Lemma sample_not_scanning (i : nat) (f : Frame) (st : State) :
  (forall x, nth_error (widgets st) i = Some x -> status x <> Scanning) ->
  sample i f st = st.
Proof.
  intros Hi. unfold sample.
  destruct (nth_error (widgets st) i) as [x|]; [|reflexivity].
  specialize (Hi x eq_refl).
  destruct (status x); try reflexivity. now contradiction Hi.
Qed.

Lemma feed_released (frames : list (nat * Frame)) (st : State) :
  camera_released st -> feed frames st = st.
Proof.
  intros Hrel. induction frames as [|[j f] rest IH]; simpl.
  - reflexivity.
  - rewrite sample_not_scanning; [exact IH|].
    intros x Hx. exact (proj1 (camera_released_nth st) Hrel j x Hx).
Qed.

(** Clearing the only scanning widget releases the camera. *)
Lemma clear_only_scanning (i : nat) (st : State) :
  only_scanning i st -> camera_released (clear i st).
Proof.
  intros (_ & _ & Honly). apply camera_released_nth.
  intros j x. unfold clear. simpl. rewrite nth_error_update_nth.
  destruct (j =? i)%nat eqn:E.
  - destruct (nth_error (widgets st) j) as [y|]; simpl; [|discriminate].
    intros [= <-]. discriminate.
  - intros Hj Hscan. apply Nat.eqb_neq in E. exact (E (Honly j x Hj Hscan)).
Qed.

Lemma clear_released (i : nat) (st : State) :
  camera_released st -> camera_released (clear i st).
Proof.
  intros Hrel. apply camera_released_nth.
  intros j x. unfold clear. simpl. rewrite nth_error_update_nth.
  destruct (j =? i)%nat.
  - destruct (nth_error (widgets st) j) as [y|]; simpl; [|discriminate].
    intros [= <-]. discriminate.
  - exact (proj1 (camera_released_nth st) Hrel j x).
Qed.

(** The effect starts one widget, which is then the only one scanning. *)
Lemma effect_only_scanning (prev : State) :
  camera_released prev -> only_scanning (List.length (widgets prev)) (effect prev).
Proof.
  intros Hrel. unfold only_scanning, effect, render. simpl.
  split; [reflexivity|]. split.
  - rewrite nth_error_update_nth, Nat.eqb_refl, nth_error_app2, Nat.sub_diag by lia.
    simpl. now eexists.
  - intros j x. rewrite nth_error_update_nth.
    destruct (j =? List.length (widgets prev))%nat eqn:E.
    + intros _ _. now apply Nat.eqb_eq.
    + intros Hj Hscan. exfalso. apply Nat.eqb_neq in E.
      destruct (Nat.lt_ge_cases j (List.length (widgets prev))) as [Hlt|Hge].
      * rewrite nth_error_app1 in Hj by exact Hlt.
        exact (proj1 (camera_released_nth prev) Hrel j x Hj Hscan).
      * rewrite nth_error_app2 in Hj by exact Hge.
        destruct (j - List.length (widgets prev))%nat as [|k] eqn:Hk; [lia|].
        simpl in Hj. now destruct k.
Qed.

(** Which widget scans depends on the widgets and the ref alone. *)
Lemma only_scanning_ext (i : nat) (st st' : State) :
  widgets st' = widgets st -> scannerRef st' = scannerRef st ->
  only_scanning i st -> only_scanning i st'.
Proof.
  unfold only_scanning. intros -> ->. trivial.
Qed.

Lemma onScanError_only_scanning (i : nat) (err : string) (st : State) :
  only_scanning i st -> only_scanning i (onScanError err st).
Proof. apply only_scanning_ext; reflexivity. Qed.

Lemma onScanSuccess_released (i : nat) (text : string) (st : State) :
  only_scanning i st -> camera_released (onScanSuccess text st).
Proof.
  intros Honly. unfold onScanSuccess, clear_current. cbn [scannerRef].
  pose proof (proj1 Honly) as Href. rewrite Href.
  apply clear_only_scanning.
  apply (only_scanning_ext i st); [reflexivity|now rewrite Href|exact Honly].
Qed.

(** One activation, from any state in which widget [i] alone is scanning. *)
Lemma feed_only_scanning (i : nat) (frames : list (nat * Frame)) :
  forall st, only_scanning i st ->
  let st' := feed frames st in
  results st' = results st ++ firstn 1 (decoded_by i frames)
  /\ console st' = console st ++ errors_until_decoded i frames
  /\ (decoded_by i frames = [] -> only_scanning i st')
  /\ (decoded_by i frames <> [] -> camera_released st')
  /\ camera_released (cleanup st').
Proof.
  induction frames as [|[j f] rest IH]; intros st Honly; cbn [feed fold_left fst snd].
  - cbn [decoded_by errors_until_decoded firstn]. rewrite !app_nil_r.
    split; [reflexivity|]. split; [reflexivity|]. split; [intros _; exact Honly|].
    split; [intros Habs; now contradiction Habs|].
    unfold cleanup, clear_current. rewrite (proj1 Honly).
    now apply clear_only_scanning.
  - fold (feed rest (sample j f st)).
    destruct (Nat.eqb_spec j i) as [->|Hneq].
    + pose proof Honly as (Href & (x & Hx & Hscan) & _).
      unfold sample at 1 2 3 4 5. rewrite Hx, Hscan.
      destruct f as [text|err]; cbn [decoded_by errors_until_decoded];
        rewrite Nat.eqb_refl.
      * assert (Hrel : camera_released (onScanSuccess text st))
          by exact (onScanSuccess_released i text st Honly).
        rewrite (feed_released rest _ Hrel).
        split.
        { unfold onScanSuccess, clear_current. cbn [scannerRef]. rewrite Href.
          reflexivity. }
        split.
        { unfold onScanSuccess, clear_current. cbn [scannerRef]. rewrite Href.
          cbn. now rewrite app_nil_r. }
        split; [discriminate|]. split; [intros _; exact Hrel|].
        unfold cleanup, clear_current.
        destruct (scannerRef (onScanSuccess text st)); [|exact Hrel].
        now apply clear_released.
      * destruct (IH (onScanError err st) (onScanError_only_scanning i err st Honly))
          as (Hres & Hcon & Hscanning & Hreleased & Hcleanup).
        split; [exact Hres|]. split.
        { rewrite Hcon. cbn [onScanError console]. now rewrite <- app_assoc. }
        split; [exact Hscanning|]. split; [exact Hreleased|exact Hcleanup].
    + assert (Hsame : sample j f st = st).
      { apply sample_not_scanning. intros x Hx Hscan.
        exact (Hneq (proj2 (proj2 Honly) j x Hx Hscan)). }
      rewrite Hsame.
      assert (Hdec : decoded_by i ((j, f) :: rest) = decoded_by i rest).
      { destruct f; cbn [decoded_by]; [|reflexivity].
        now rewrite (proj2 (Nat.eqb_neq j i) Hneq). }
      assert (Herrs : errors_until_decoded i ((j, f) :: rest)
                      = errors_until_decoded i rest).
      { destruct f; cbn [errors_until_decoded];
          now rewrite (proj2 (Nat.eqb_neq j i) Hneq). }
      rewrite Hdec, Herrs. exact (IH st Honly).
Qed.

(** C8. From any state in which the camera is free (the component not yet on
    the page, or cleaned up), the effect starts widget number [i], and then,
    whatever frames the widgets sample: [onResult] has been called with the
    first text widget [i] decoded and with no other; the errors of its
    frames before that one have been logged; while it has decoded nothing it
    is still the scanning widget [scannerRef] holds; once it has decoded a
    frame the camera is released; and after the cleanup function the camera
    is released in any case. *)
Theorem scanner_is_single_shot (prev : State) (frames : list (nat * Frame)) :
  camera_released prev ->
  let i := List.length (widgets prev) in
  let st := feed frames (effect prev) in
  results st = results prev ++ firstn 1 (decoded_by i frames)
  /\ console st = console prev ++ errors_until_decoded i frames
  /\ (decoded_by i frames = [] -> only_scanning i st)
  /\ (decoded_by i frames <> [] -> camera_released st)
  /\ camera_released (cleanup st).
Proof.
  intros Hrel i st.
  exact (feed_only_scanning i frames (effect prev) (effect_only_scanning prev Hrel)).
Qed.

(** Two frames without a code, then "https://example.com", then "again". *)
Lemma scanner_is_single_shot_witness :
  let frames := [(0%nat, NotDecoded "No MultiFormat Readers were able to detect the code.");
                 (0%nat, NotDecoded "No MultiFormat Readers were able to detect the code.");
                 (0%nat, Decoded "https://example.com");
                 (0%nat, Decoded "again")] in
  camera_released unmounted
  /\ results (feed frames (effect unmounted)) = ["https://example.com"]
  /\ console (feed frames (effect unmounted))
     = ["No MultiFormat Readers were able to detect the code.";
        "No MultiFormat Readers were able to detect the code."]
  /\ camera_released (feed frames (effect unmounted)).
Proof.
  intro frames.
  assert (Hrel : camera_released unmounted) by (intros x Hin; destruct Hin).
  destruct (scanner_is_single_shot unmounted frames Hrel)
    as (Hres & Hcon & _ & Hreleased & _).
  split; [exact Hrel|]. split; [exact Hres|]. split; [exact Hcon|].
  apply Hreleased. discriminate.
Defined.

End ScannerFacts.

(** * Further properties of the page *)
(** * Further properties of the page *)

(** ** The upload, from the file input to the preview *)

Lemma nth_error_last {A} (l : list A) (t : A) :
  nth_error (l ++ [t]) (List.length l) = Some t.
Proof.
  rewrite nth_error_app2, Nat.sub_diag by lia. reflexivity.
Qed.

Lemma remove_nth_last {A} (l : list A) (t : A) :
  remove_nth (List.length l) (l ++ [t]) = l.
Proof.
  induction l as [|a l IH]; simpl; [reflexivity|now rewrite IH].
Qed.

(** The callback registered last fires. *)
Lemma fire_last `{Browser} (w : World) (l : list Task) (t : Task) :
  pending w = l ++ [t] ->
  step (Fire (List.length l)) w = run_task t (set_pending l w).
Proof.
  intros Hp. cbn [step]. rewrite Hp, nth_error_last, remove_nth_last. reflexivity.
Qed.

(** A file of at most 5,242,880 bytes (that size included) goes through the
    reader and the image load: the handler only registers the reader's
    callback, and does not clear an error shown before; when the content
    loads as an image the preview becomes the PNG data URL of the processed
    100 x 100 canvas and nothing else changes; when it does not load as an
    image the page is exactly as before the upload, with no error shown for
    it. *)
Theorem accepted_logo_becomes_preview `{Browser} (w : World) (file : File) :
  file_size file <= 5242880 ->
  let url := readAsDataURL file in
  let w1 := handleLogoUpload (Some file) w in
  let w2 := step (Fire (List.length (pending w))) w1 in
  let w3 := step (Fire (List.length (pending w))) w2 in
  w1 = mkWorld (inputData w) (qrCode w) (logoPreview w) (error w) (loading w)
               (logoInputRef w) (canvasRef w)
               (pending w ++ [ReaderTask file]) (effects w)
  /\ w2 = mkWorld (inputData w) (qrCode w) (logoPreview w) (error w) (loading w)
                  (logoInputRef w) (canvasRef w)
                  (pending w ++ [ImgTask url]) (effects w)
  /\ match decode url with
     | Some (iw, ih) =>
         w3 = mkWorld (inputData w) (qrCode w)
                      (toDataURL (img_onload_canvas (mkImage url iw ih)) "image/png")
                      (error w) (loading w) (logoInputRef w) (canvasRef w)
                      (pending w) (effects w)
         /\ is_png_data_url (logoPreview w3)
     | None => w3 = w
     end.
Proof.
  intros Hsize url w1 w2 w3.
  assert (E1 : w1 = mkWorld (inputData w) (qrCode w) (logoPreview w) (error w)
                      (loading w) (logoInputRef w) (canvasRef w)
                      (pending w ++ [ReaderTask file]) (effects w)).
  { subst w1. unfold handleLogoUpload, exec, seq, when.
    replace (file_size file >? 5 * 1024 * 1024) with false; [reflexivity|].
    symmetry. rewrite Z.gtb_ltb. apply Z.ltb_ge. lia. }
  assert (E2 : w2 = mkWorld (inputData w) (qrCode w) (logoPreview w) (error w)
                      (loading w) (logoInputRef w) (canvasRef w)
                      (pending w ++ [ImgTask url]) (effects w)).
  { subst w2. rewrite (fire_last w1 (pending w) (ReaderTask file))
      by (rewrite E1; reflexivity).
    rewrite E1. reflexivity. }
  split; [exact E1|]. split; [exact E2|].
  subst w3. rewrite (fire_last w2 (pending w) (ImgTask url))
    by (rewrite E2; reflexivity).
  rewrite E2. cbn [run_task]. fold url.
  destruct (decode url) as [[iw ih]|].
  - split; [reflexivity|]. unfold img_onload, exec, setLogoPreview.
    cbn [snd logoPreview]. apply toDataURL_png; reflexivity.
  - destruct w. reflexivity.
Qed.

(** A file of exactly 5,242,880 bytes, with an error showing. *)
Lemma accepted_logo_becomes_preview_witness :
  let file := mkFile "logo.png" 5242880 in
  let w := downloadQRCode 0 initial in
  file_size file <= 5242880
  /\ error (handleLogoUpload (Some file) w) = "No QR code to download"
  /\ logoPreview (@step Sample.browser (Fire 0)
                    (@step Sample.browser (Fire 0) (handleLogoUpload (Some file) w)))
     = "data:image/png;base64,png100x100L2".
Proof.
  intros file w.
  assert (Hsize : file_size file <= 5242880) by (vm_compute; discriminate).
  destruct (@accepted_logo_becomes_preview Sample.browser w file Hsize)
    as (E1 & _ & E3).
  split; [exact Hsize|]. split.
  - rewrite E1. reflexivity.
  - assert (Hdec : @decode Sample.browser (@readAsDataURL Sample.browser file)
                   = Some (50, 50)) by reflexivity.
    cbv zeta in E3. rewrite Hdec in E3. destruct E3 as [E3 _].
    etransitivity; [exact (f_equal logoPreview E3)|].
    vm_compute. reflexivity.
Defined.

(** ** The overlay *)

Section Overlay.

Context `{Browser}.

(** The logo callback registered last fires on the working canvas. *)
Lemma logo_callback_spec (v : World) (c : Canvas) (l : list Task)
      (src : string) (iw ih : Z) :
  working_canvas v c ->
  pending v = l ++ [LogoImgTask src] ->
  decode src = Some (iw, ih) ->
  let c' := with_layers
              (layers c ++ overlays (canvas_width c) [mkImage src iw ih]) c in
  step (Fire (List.length l)) v
  = mkWorld (inputData v) (toDataURL c' "image/png") (logoPreview v) (error v)
            (loading v) (logoInputRef v) (Some c') l (effects v).
Proof.
  intros (Hc & Hw & Hh & Hclip) Hp Hdec c'.
  rewrite (fire_last v l (LogoImgTask src) Hp).
  cbn [run_task]. rewrite Hdec.
  rewrite (logoImg_onload_spec (set_pending l v) c) by exact Hc.
  subst c'. unfold overlays, overlay_offset. cbn [map].
  rewrite Hh, Hclip. reflexivity.
Qed.

(** With a logo, the handler returns with the loading flag cleared and the
    artifact not yet replaced; when the logo image has loaded, the canvas has
    the side s the encoder gave it and holds the QR rendering and, over it,
    the logo in 100 x 100 at ((s - 100) / 2, (s - 100) / 2), unclipped: the
    centre of the s x s bitmap.  That canvas, exported, is the artifact. *)
Theorem logo_is_overlaid_at_the_centre (w : World) (size : positive) (iw ih : Z) :
  reachable w ->
  whitespace_only (inputData w) = false ->
  QRCode_create (inputData w) qrOptions = Rendered size ->
  logoPreview w <> "" ->
  decode (logoPreview w) = Some (iw, ih) ->
  let w1 := embedLogoInQRCode w in
  let w2 := step (Fire (List.length (pending w))) w1 in
  (qrCode w1 = qrCode w /\ loading w1 = false)
  /\ exists c2,
       canvasRef w2 = Some c2
       /\ bitmap c2
          = mkBitmap (Zpos size) (Zpos size)
              (QRLayer (inputData w) qrOptions []
               :: [ImageLayer (mkImage (logoPreview w) iw ih)
                     ((num (Zpos size) - num 100) / num 2)%float
                     ((num (Zpos size) - num 100) / num 2)%float
                     (num 100) (num 100) []])
       /\ qrCode w2 = toDataURL c2 "image/png"
       /\ pending w2 = pending w
       /\ error w2 = "".
Proof.
  intros Hreach Hws Henc Hlogo Hdec w1 w2.
  destruct (reachable_working_canvas w Hreach) as (c & Hc & Hw & Hh & Hclip).
  pose (c1 := qr_canvas (inputData w) size).
  assert (E1 : w1 = mkWorld (inputData w) (qrCode w) (logoPreview w) "" false
                      (logoInputRef w) (Some c1)
                      (pending w ++ [LogoImgTask (logoPreview w)])
                      (effects w ++ [EncoderCall (inputData w) qrOptions])).
  { subst w1. rewrite (embedLogoInQRCode_accepted w c Hc Hclip Hws), Henc.
    cbv zeta. destruct (logoPreview w); [contradiction|reflexivity]. }
  split; [rewrite E1; split; reflexivity|].
  subst w2.
  rewrite (logo_callback_spec w1 c1 (pending w) (logoPreview w) iw ih).
  - eexists. split; [reflexivity|]. rewrite E1.
    cbn [qrCode pending error]. repeat split.
  - apply working_canvas_qr_canvas. rewrite E1. reflexivity.
  - rewrite E1. reflexivity.
  - exact Hdec.
Qed.

(** Removing the logo while a generation waits for the logo image does not
    cancel the overlay: the callback carries the logo of the moment the
    button was clicked, so the artifact it sets shows that logo, at the
    centre of the canvas of the side s the encoder gave it, although the
    preview is empty by then. *)
Theorem removed_logo_is_still_overlaid (w : World) (size : positive) (iw ih : Z) :
  reachable w ->
  whitespace_only (inputData w) = false ->
  QRCode_create (inputData w) qrOptions = Rendered size ->
  logoPreview w <> "" ->
  decode (logoPreview w) = Some (iw, ih) ->
  let w2 := step (Fire (List.length (pending w))) (removeLogo (embedLogoInQRCode w)) in
  logoPreview w2 = ""
  /\ exists c2,
       canvasRef w2 = Some c2
       /\ canvas_width c2 = Zpos size /\ canvas_height c2 = Zpos size
       /\ layers c2 = QRLayer (inputData w) qrOptions []
                      :: overlays (Zpos size) [mkImage (logoPreview w) iw ih]
       /\ qrCode w2 = toDataURL c2 "image/png"
       /\ is_png_data_url (qrCode w2).
Proof.
  intros Hreach Hws Henc Hlogo Hdec w2.
  destruct (reachable_working_canvas w Hreach) as (c & Hc & Hw & Hh & Hclip).
  pose (c1 := qr_canvas (inputData w) size).
  assert (E1 : removeLogo (embedLogoInQRCode w)
               = mkWorld (inputData w) (qrCode w) "" "" false
                   (match logoInputRef w with Some _ => Some "" | None => None end)
                   (Some c1)
                   (pending w ++ [LogoImgTask (logoPreview w)])
                   (effects w ++ [EncoderCall (inputData w) qrOptions])).
  { rewrite removeLogo_spec, (embedLogoInQRCode_accepted w c Hc Hclip Hws), Henc.
    cbv zeta. destruct (logoPreview w); [contradiction|reflexivity]. }
  subst w2.
  rewrite (logo_callback_spec _ c1 (pending w) (logoPreview w) iw ih).
  - split; [rewrite E1; reflexivity|].
    eexists. split; [reflexivity|]. split; [reflexivity|].
    split; [reflexivity|]. split; [reflexivity|]. split; [reflexivity|].
    cbn [qrCode]. apply toDataURL_png; reflexivity.
  - apply working_canvas_qr_canvas. rewrite E1. reflexivity.
  - rewrite E1. reflexivity.
  - exact Hdec.
Qed.

(** Without a logo a second run on the same text gives the same state but
    for one more call of the encoder in the log: same artifact, same
    canvas. *)
Theorem generation_is_idempotent (w : World) (size : positive) :
  reachable w ->
  whitespace_only (inputData w) = false ->
  QRCode_create (inputData w) qrOptions = Rendered size ->
  logoPreview w = "" ->
  let w1 := embedLogoInQRCode w in
  embedLogoInQRCode w1
  = mkWorld (inputData w1) (qrCode w1) (logoPreview w1) (error w1) (loading w1)
            (logoInputRef w1) (canvasRef w1) (pending w1)
            (effects w1 ++ [EncoderCall (inputData w) qrOptions]).
Proof.
  intros Hreach Hws Henc Hlogo w1.
  destruct (reachable_working_canvas w Hreach) as (c & Hc & Hw & Hh & Hclip).
  pose (c1 := qr_canvas (inputData w) size).
  assert (E1 : w1 = mkWorld (inputData w) (toDataURL c1 "image/png")
                      "" "" false (logoInputRef w) (Some c1) (pending w)
                      (effects w ++ [EncoderCall (inputData w) qrOptions])).
  { subst w1. rewrite (embedLogoInQRCode_accepted w c Hc Hclip Hws), Henc, Hlogo.
    reflexivity. }
  rewrite (embedLogoInQRCode_accepted w1 c1).
  - rewrite E1. cbn [inputData logoPreview]. rewrite Henc. reflexivity.
  - rewrite E1. reflexivity.
  - reflexivity.
  - rewrite E1. exact Hws.
Qed.

(** With no working canvas a run on an accepted text clears the error and
    ends there: the encoder is not called, no artifact is set, and the
    [finally] block still clears the loading flag. *)
Theorem generate_without_canvas (w : World) :
  canvasRef w = None ->
  whitespace_only (inputData w) = false ->
  embedLogoInQRCode w
  = mkWorld (inputData w) (qrCode w) (logoPreview w) "" false
            (logoInputRef w) None (pending w) (effects w).
Proof.
  intros Hc Hws.
  unfold embedLogoInQRCode, exec, seq, when.
  rewrite trim_truthy, Hws. cbn [negb skip].
  unfold try_catch_finally, embedLogoInQRCode_try, seq, return_unless_canvas.
  cbn [setLoading setError canvasRef]. rewrite Hc. reflexivity.
Qed.

End Overlay.

(** The page after an upload, with a text typed in that the encoder renders
    399 pixels a side: the logo is drawn at (149.5, 149.5). *)
Lemma logo_is_overlaid_at_the_centre_witness :
  let w := @run Sample.browser
             [ChooseFile (Some Sample.logo_png); Fire 0; Fire 0;
              ChangeInput Sample.longer] initial in
  let w2 := @step Sample.browser (Fire (List.length (pending w)))
              (@embedLogoInQRCode Sample.browser w) in
  (@reachable Sample.browser w /\ whitespace_only (inputData w) = false)
  /\ (@QRCode_create Sample.browser (inputData w) qrOptions = Rendered 399
      /\ logoPreview w <> ""
      /\ @decode Sample.browser (logoPreview w) = Some (50, 50))
  /\ qrCode w2 = "data:image/png;base64,png399x399L2"
  /\ exists c2,
       canvasRef w2 = Some c2
       /\ layers c2
          = [QRLayer Sample.longer qrOptions [];
             ImageLayer (mkImage (logoPreview w) 50 50)
               0x1.2bp+7%float 0x1.2bp+7%float (num 100) (num 100) []].
Proof.
  intros w w2.
  assert (Hreach : @reachable Sample.browser w) by (eexists; reflexivity).
  assert (Hws : whitespace_only (inputData w) = false) by reflexivity.
  assert (Henc : @QRCode_create Sample.browser (inputData w) qrOptions
                 = Rendered 399) by reflexivity.
  assert (Hlogo : logoPreview w <> "") by (vm_compute; discriminate).
  assert (Hdec : @decode Sample.browser (logoPreview w) = Some (50, 50))
    by reflexivity.
  destruct (@logo_is_overlaid_at_the_centre Sample.browser w 399 50 50
              Hreach Hws Henc Hlogo Hdec) as (_ & c2 & Hc2 & Hbm & Hqr & _).
  split; [split; assumption|]. split; [repeat split; assumption|].
  split.
  - subst w2. rewrite Hqr. unfold toDataURL.
    change (canvas_width c2) with (bm_width (bitmap c2)).
    change (canvas_height c2) with (bm_height (bitmap c2)).
    rewrite Hbm. vm_compute. reflexivity.
  - exists c2. split; [exact Hc2|].
    change (layers c2) with (bm_layers (bitmap c2)).
    rewrite Hbm. vm_compute. reflexivity.
Defined.

Lemma removed_logo_is_still_overlaid_witness :
  let w := @run Sample.browser
             [ChooseFile (Some Sample.logo_png); Fire 0; Fire 0;
              ChangeInput Sample.hello] initial in
  (@reachable Sample.browser w /\ whitespace_only (inputData w) = false)
  /\ (@QRCode_create Sample.browser (inputData w) qrOptions = Rendered 400
      /\ logoPreview w <> ""
      /\ @decode Sample.browser (logoPreview w) = Some (50, 50))
  /\ logoPreview (@step Sample.browser (Fire (List.length (pending w)))
                    (removeLogo (@embedLogoInQRCode Sample.browser w))) = ""
  /\ exists c2,
       canvasRef (@step Sample.browser (Fire (List.length (pending w)))
                    (removeLogo (@embedLogoInQRCode Sample.browser w))) = Some c2
       /\ layers c2
          = [QRLayer Sample.hello qrOptions [];
             ImageLayer (mkImage (logoPreview w) 50 50)
               (num 150) (num 150) (num 100) (num 100) []].
Proof.
  intro w.
  assert (Hreach : @reachable Sample.browser w) by (eexists; reflexivity).
  assert (Hws : whitespace_only (inputData w) = false) by reflexivity.
  assert (Henc : @QRCode_create Sample.browser (inputData w) qrOptions
                 = Rendered 400) by reflexivity.
  assert (Hlogo : logoPreview w <> "") by (vm_compute; discriminate).
  assert (Hdec : @decode Sample.browser (logoPreview w) = Some (50, 50))
    by reflexivity.
  destruct (@removed_logo_is_still_overlaid Sample.browser w 400 50 50
              Hreach Hws Henc Hlogo Hdec)
    as (Hempty & c2 & Hc2 & _ & _ & Hlayers & _).
  split; [split; assumption|]. split; [repeat split; assumption|].
  split; [exact Hempty|].
  exists c2. split; [exact Hc2|]. rewrite Hlayers. vm_compute. reflexivity.
Defined.

Lemma generation_is_idempotent_witness :
  let w := @run Sample.browser [ChangeInput Sample.hello] initial in
  (@reachable Sample.browser w /\ whitespace_only (inputData w) = false)
  /\ (@QRCode_create Sample.browser (inputData w) qrOptions = Rendered 400
      /\ logoPreview w = "")
  /\ qrCode (@embedLogoInQRCode Sample.browser (@embedLogoInQRCode Sample.browser w))
     = qrCode (@embedLogoInQRCode Sample.browser w).
Proof.
  intro w.
  assert (Hreach : @reachable Sample.browser w) by (eexists; reflexivity).
  assert (Hws : whitespace_only (inputData w) = false) by reflexivity.
  assert (Henc : @QRCode_create Sample.browser (inputData w) qrOptions
                 = Rendered 400) by reflexivity.
  assert (Hlogo : logoPreview w = "") by reflexivity.
  pose proof (@generation_is_idempotent Sample.browser w 400 Hreach Hws Henc Hlogo)
    as E.
  cbv zeta in E.
  split; [split; assumption|]. split; [split; assumption|].
  rewrite E. reflexivity.
Defined.

(** A state with no canvas mounted and an old error showing. *)
Lemma generate_without_canvas_witness :
  let w := mkWorld Sample.hello "" "" "Please enter data" false None None [] [] in
  canvasRef w = None /\ whitespace_only (inputData w) = false
  /\ @embedLogoInQRCode Sample.browser w
     = mkWorld Sample.hello "" "" "" false None None [] [].
Proof.
  intro w.
  assert (Hc : canvasRef w = None) by reflexivity.
  assert (Hws : whitespace_only (inputData w) = false) by reflexivity.
  split; [exact Hc|]. split; [exact Hws|].
  exact (@generate_without_canvas Sample.browser w Hc Hws).
Defined.

(** ** What holds in every state of the page *)

Ltac pick_case := repeat (first [left; reflexivity | right]).

Section Invariants.

Context `{Browser}.

Lemma handleLogoUpload_fields (file : option File) (w : World) :
  let w' := handleLogoUpload file (exec (picked file) w) in
  loading w' = loading w
  /\ logoPreview w' = logoPreview w
  /\ (error w' = error w \/ error w' = "Logo must be less than 5MB").
Proof.
  unfold handleLogoUpload, picked, exec, seq, when.
  destruct (logoInputRef w), file as [f|]; simpl;
    try (match goal with |- context [(?a >? ?b)%Z] => destruct (a >? b)%Z end);
    simpl; auto.
Qed.

(** How one event can change the error shown. *)
Lemma step_error_cases (e : Event) (w : World) (c : Canvas) :
  working_canvas w c ->
  error (step e w) = error w
  \/ error (step e w) = ""
  \/ error (step e w) = "Please enter data"
  \/ error (step e w) = "Logo must be less than 5MB"
  \/ error (step e w) = "Failed to generate QR code"
  \/ (error (step e w) = "No QR code to download" /\ offered e w = false).
Proof.
  intros (Hc & Hw & Hh & Hclip).
  destruct e as [data|file|n| | |now]; cbn [step].
  - now left.
  - destruct (handleLogoUpload_fields file w) as (_ & _ & [E|E]);
      rewrite E; pick_case.
  - destruct (nth_error (pending w) n) as [t|]; [|now left].
    destruct t as [f|src|src]; cbn [run_task].
    + now left.
    + destruct (decode src) as [[iw ih]|]; now left.
    + destruct (decode src) as [[iw ih]|]; [|now left].
      rewrite (logoImg_onload_spec _ c) by exact Hc. now left.
  - destruct (whitespace_only (inputData w)) eqn:Hws.
    + rewrite embedLogoInQRCode_rejected by exact Hws. cbn [error]. pick_case.
    + rewrite (embedLogoInQRCode_accepted w c Hc Hclip Hws).
      destruct (QRCode_create (inputData w) qrOptions);
        [destruct (truthy (logoPreview w))|]; cbn [error]; pick_case.
  - rewrite removeLogo_spec. now left.
  - destruct (string_dec (qrCode w) "") as [E|E].
    + rewrite (proj1 (downloadQRCode_spec w now) E).
      do 5 right. split; [reflexivity|].
      unfold offered, Home_view. cbn. now rewrite E.
    + rewrite (proj2 (downloadQRCode_spec w now) E). now left.
Qed.

Lemma step_loading (e : Event) (w : World) (c : Canvas) :
  working_canvas w c -> loading w = false -> loading (step e w) = false.
Proof.
  intros (Hc & Hw & Hh & Hclip) Hl.
  destruct e as [data|file|n| | |now]; cbn [step].
  - exact Hl.
  - destruct (handleLogoUpload_fields file w) as (E & _). now rewrite E.
  - destruct (nth_error (pending w) n) as [t|]; [|exact Hl].
    destruct t as [f|src|src]; cbn [run_task].
    + exact Hl.
    + destruct (decode src) as [[iw ih]|]; exact Hl.
    + destruct (decode src) as [[iw ih]|]; [|exact Hl].
      rewrite (logoImg_onload_spec _ c) by exact Hc. exact Hl.
  - destruct (whitespace_only (inputData w)) eqn:Hws.
    + rewrite embedLogoInQRCode_rejected by exact Hws. exact Hl.
    + now apply embedLogoInQRCode_clears_loading.
  - rewrite removeLogo_spec. exact Hl.
  - destruct (string_dec (qrCode w) "") as [E|E].
    + rewrite (proj1 (downloadQRCode_spec w now) E). exact Hl.
    + rewrite (proj2 (downloadQRCode_spec w now) E). exact Hl.
Qed.

Lemma step_logoPreview_png (e : Event) (w : World) (c : Canvas) :
  working_canvas w c ->
  logoPreview w = "" \/ is_png_data_url (logoPreview w) ->
  logoPreview (step e w) = "" \/ is_png_data_url (logoPreview (step e w)).
Proof.
  intros (Hc & Hw & Hh & Hclip) Hp.
  destruct e as [data|file|n| | |now]; cbn [step].
  - exact Hp.
  - destruct (handleLogoUpload_fields file w) as (_ & E & _). now rewrite E.
  - destruct (nth_error (pending w) n) as [t|]; [|exact Hp].
    destruct t as [f|src|src]; cbn [run_task].
    + exact Hp.
    + destruct (decode src) as [[iw ih]|]; [|exact Hp].
      right. unfold img_onload, exec, setLogoPreview. cbn [snd logoPreview].
      apply toDataURL_png; reflexivity.
    + destruct (decode src) as [[iw ih]|]; [|exact Hp].
      rewrite (logoImg_onload_spec _ c) by exact Hc. exact Hp.
  - destruct (keeps_logo_embedLogoInQRCode w) as (E & _). now rewrite E.
  - rewrite removeLogo_spec. now left.
  - destruct (string_dec (qrCode w) "") as [E|E].
    + rewrite (proj1 (downloadQRCode_spec w now) E). exact Hp.
    + rewrite (proj2 (downloadQRCode_spec w now) E). exact Hp.
Qed.

(** In every state the page can reach: no run has left the loading flag
    set, so the Generate button is enabled; the error is empty or one of the
    four messages of the handlers; the preview and the artifact are each
    empty or a PNG data URL. *)
Theorem reachable_state_is_well_formed (w : World) :
  reachable w ->
  (loading w = false /\ generate_disabled (Home_view w) = false)
  /\ (error w = "" \/ handler_message (error w))
  /\ (logoPreview w = "" \/ is_png_data_url (logoPreview w))
  /\ (qrCode w = "" \/ is_png_data_url (qrCode w)).
Proof.
  intros [es ->].
  assert (Hinv : (exists c, working_canvas (run es initial) c)
                 /\ loading (run es initial) = false
                 /\ (error (run es initial) = ""
                     \/ handler_message (error (run es initial)))
                 /\ (logoPreview (run es initial) = ""
                     \/ is_png_data_url (logoPreview (run es initial)))
                 /\ (qrCode (run es initial) = ""
                     \/ is_png_data_url (qrCode (run es initial)))).
  { induction es as [|e es IH] using rev_ind.
    - split; [eexists; repeat split; reflexivity|].
      cbn. repeat split; now left.
    - destruct IH as ([c Hok] & Hl & He & Hp & Hq).
      unfold run. rewrite fold_left_app. cbn [fold_left].
      fold (run es initial).
      split; [exact (step_working_canvas e _ c Hok)|].
      split; [exact (step_loading e _ c Hok Hl)|].
      split.
      + unfold handler_message.
        destruct (step_error_cases e _ c Hok)
          as [E|[E|[E|[E|[E|[E _]]]]]]; rewrite E; auto.
      + split; [exact (step_logoPreview_png e _ c Hok Hp)|].
        exact (step_artifact_png e _ c Hok Hq). }
  destruct Hinv as (_ & Hl & He & Hp & Hq).
  split; [split; [exact Hl|exact Hl]|]. auto.
Qed.

Lemma overlays_app (side : Z) (imgs : list Image) (img : Image) :
  overlays side imgs ++ overlays side [img] = overlays side (imgs ++ [img]).
Proof. unfold overlays. now rewrite map_app. Qed.

Lemma step_layers (e : Event) (w : World) (c : Canvas) :
  working_canvas w c -> qr_then_overlays (canvas_width c) (layers c) ->
  exists c', working_canvas (step e w) c'
             /\ qr_then_overlays (canvas_width c') (layers c').
Proof.
  intros Hok Hshape. pose proof Hok as (Hc & Hw & Hh & Hclip).
  assert (Hsame : canvasRef (step e w) = canvasRef w ->
                  exists c', working_canvas (step e w) c'
                             /\ qr_then_overlays (canvas_width c') (layers c')).
  { intros E. exists c. split; [|exact Hshape].
    now apply (working_canvas_same_ref w). }
  destruct e as [data|file|n| | |now]; cbn [step] in *.
  - now apply Hsame.
  - apply Hsame, handleLogoUpload_canvasRef.
  - destruct (nth_error (pending w) n) as [t|]; [|now apply Hsame].
    destruct t as [f|src|src]; cbn [run_task] in *.
    + now apply Hsame.
    + destruct (decode src) as [[iw ih]|]; now apply Hsame.
    + destruct (decode src) as [[iw ih]|]; [|now apply Hsame].
      rewrite (logoImg_onload_spec _ c) by exact Hc.
      eexists. split; [repeat split; assumption|].
      cbn [with_layers layers canvas_width]. rewrite Hh, Hclip.
      change [ImageLayer (mkImage src iw ih)
                ((num (canvas_width c) - num 100) / num 2)%float
                ((num (canvas_width c) - num 100) / num 2)%float
                (num 100) (num 100) []]
        with (overlays (canvas_width c) [mkImage src iw ih]).
      destruct Hshape as [imgs [-> | [data ->]]]; exists (imgs ++ [mkImage src iw ih]).
      * left. apply overlays_app.
      * right. exists data. cbn [app]. now rewrite overlays_app.
  - destruct (whitespace_only (inputData w)) eqn:Hws.
    + apply Hsame. now rewrite embedLogoInQRCode_rejected.
    + rewrite (embedLogoInQRCode_accepted w c Hc Hclip Hws).
      destruct (QRCode_create (inputData w) qrOptions) as [size|err];
        [destruct (truthy (logoPreview w))|]; eexists.
      * split; [apply working_canvas_qr_canvas; reflexivity|].
        exists []. right. now exists (inputData w).
      * split; [apply working_canvas_qr_canvas; reflexivity|].
        exists []. right. now exists (inputData w).
      * split; [eapply working_canvas_with_layers; [exact Hok|reflexivity]|].
        exists []. now left.
  - apply Hsame. now rewrite removeLogo_spec.
  - apply Hsame. destruct (string_dec (qrCode w) "") as [E|E].
    + now rewrite (proj1 (downloadQRCode_spec w now) E).
    + now rewrite (proj2 (downloadQRCode_spec w now) E).
Qed.

(** In every state the page can reach the working canvas is mounted, is a
    square of some side s > 0 (400 as first rendered, afterwards the side
    the encoder last gave it) and unclipped, and holds at most one QR
    rendering, at the bottom, with nothing over it but logo overlays in
    100 x 100 at ((s - 100) / 2, (s - 100) / 2). *)
Theorem working_canvas_holds_qr_then_overlays (w : World) :
  reachable w ->
  exists c,
    canvasRef w = Some c
    /\ 0 < canvas_width c
    /\ bitmap c = mkBitmap (canvas_width c) (canvas_width c) (layers c)
    /\ clip_region c = []
    /\ qr_then_overlays (canvas_width c) (layers c).
Proof.
  intros [es ->].
  assert (Hinv : exists c, working_canvas (run es initial) c
                           /\ qr_then_overlays (canvas_width c) (layers c)).
  { induction es as [|e es IH] using rev_ind.
    - eexists. split; [exact initial_working_canvas|].
      exists []. now left.
    - destruct IH as (c & Hok & Hshape).
      unfold run. rewrite fold_left_app. cbn [fold_left].
      exact (step_layers e _ c Hok Hshape). }
  destruct Hinv as (c & (Hc & Hw & Hh & Hclip) & Hshape).
  exists c. split; [exact Hc|]. split; [exact Hw|]. split.
  - unfold bitmap. now rewrite Hh.
  - split; assumption.
Qed.

Lemma ui_run_is_run (es : list Event) :
  forall w0 w, ui_run es w0 = Some w -> w = run es w0.
Proof.
  induction es as [|e es IH]; intros w0 w; cbn [ui_run].
  - now intros [= <-].
  - destruct (offered e w0); [|discriminate]. intros Hrun.
    exact (IH _ _ Hrun).
Qed.

(** Through the rendered page the message "No QR code to download" is never
    shown: the Download button exists only beside an artifact, so the error
    is empty or one of the three other messages. *)
Theorem download_error_needs_a_hidden_button (es : list Event) (w : World) :
  ui_run es initial = Some w ->
  reachable w
  /\ error w <> "No QR code to download"
  /\ (error w = "" \/ error w = "Please enter data"
      \/ error w = "Logo must be less than 5MB"
      \/ error w = "Failed to generate QR code").
Proof.
  intros Hrun.
  split; [exists es; now apply ui_run_is_run|].
  assert (Hgen : forall es w0 c,
             working_canvas w0 c ->
             (error w0 = "" \/ error w0 = "Please enter data"
              \/ error w0 = "Logo must be less than 5MB"
              \/ error w0 = "Failed to generate QR code") ->
             ui_run es w0 = Some w ->
             error w = "" \/ error w = "Please enter data"
             \/ error w = "Logo must be less than 5MB"
             \/ error w = "Failed to generate QR code").
  { clear es Hrun. induction es as [|e es IH]; intros w0 c Hok He; cbn [ui_run].
    - now intros [= <-].
    - destruct (offered e w0) eqn:Hoff; [|discriminate].
      destruct (step_working_canvas e w0 c Hok) as [c' Hok'].
      apply (IH _ c' Hok').
      destruct (step_error_cases e w0 c Hok)
        as [E|[E|[E|[E|[E|[_ E]]]]]]; try (rewrite E; auto).
      rewrite Hoff in E. discriminate. }
  assert (Hfour : error w = "" \/ error w = "Please enter data"
                  \/ error w = "Logo must be less than 5MB"
                  \/ error w = "Failed to generate QR code").
  { apply (Hgen es initial (mkCanvas 400 400 "#000000" [] [] [])); auto.
    repeat split; reflexivity. }
  split; [|exact Hfour].
  destruct Hfour as [E|[E|[E|E]]]; rewrite E; discriminate.
Qed.

End Invariants.

Lemma reachable_state_is_well_formed_witness :
  let w := @run Sample.browser
             [ChooseFile (Some Sample.huge_png);
              ChooseFile (Some Sample.logo_png); Fire 0; Fire 0;
              ChangeInput Sample.hello; ClickGenerate; Fire 0] initial in
  @reachable Sample.browser w
  /\ loading w = false
  /\ error w = ""
  /\ @is_png_data_url Sample.browser (logoPreview w)
  /\ @is_png_data_url Sample.browser (qrCode w).
Proof.
  intro w.
  assert (Hreach : @reachable Sample.browser w) by (eexists; reflexivity).
  destruct (@reachable_state_is_well_formed Sample.browser w Hreach)
    as ((Hl & _) & _ & Hp & Hq).
  split; [exact Hreach|]. split; [exact Hl|].
  split; [vm_compute; reflexivity|]. split.
  - destruct Hp as [E|Hp]; [vm_compute in E; discriminate E|exact Hp].
  - destruct Hq as [E|Hq]; [vm_compute in E; discriminate E|exact Hq].
Defined.

(** Two generations with a logo, the second of a text rendered 399 pixels
    a side, before either logo callback fires. *)
Lemma working_canvas_holds_qr_then_overlays_witness :
  let w := @run Sample.browser
             [ChooseFile (Some Sample.logo_png); Fire 0; Fire 0;
              ChangeInput Sample.hello; ClickGenerate;
              ChangeInput Sample.longer; ClickGenerate;
              Fire 0; Fire 0] initial in
  @reachable Sample.browser w
  /\ exists c, canvasRef w = Some c
               /\ canvas_width c = 399
               /\ qr_then_overlays 399 (layers c)
               /\ List.length (layers c) = 3%nat.
Proof.
  intro w.
  assert (Hreach : @reachable Sample.browser w) by (eexists; reflexivity).
  destruct (@working_canvas_holds_qr_then_overlays Sample.browser w Hreach)
    as (c & Hc & _ & _ & _ & Hshape).
  assert (Hc' : canvasRef w = Some c) by exact Hc.
  vm_compute in Hc'. injection Hc' as <-.
  split; [exact Hreach|]. eexists. split; [vm_compute; reflexivity|].
  split; [reflexivity|]. split; [exact Hshape|reflexivity].
Defined.

Lemma download_error_needs_a_hidden_button_witness :
  let es := [ChangeInput Sample.space; ClickGenerate; ChangeInput Sample.hello; ClickGenerate;
             ClickDownload 1730000000000] in
  exists w, @ui_run Sample.browser es initial = Some w
            /\ error w <> "No QR code to download"
            /\ @ui_run Sample.browser [ClickDownload 1730000000000] initial = None.
Proof.
  intro es.
  destruct (@ui_run Sample.browser es initial) as [w|] eqn:Hrun;
    [|vm_compute in Hrun; discriminate Hrun].
  exists w.
  destruct (@download_error_needs_a_hidden_button Sample.browser es w Hrun)
    as (_ & Hnot & _).
  split; [reflexivity|]. split; [exact Hnot|reflexivity].
Defined.

(** ** Download file names *)

Lemma toString_inj (a b : Z) : toString a = toString b -> a = b.
Proof.
  unfold toString. intros E.
  assert (Hisi : forall z, NilZero.int_of_string (NilZero.string_of_int (Z.to_int z))
                           = Some (Z.to_int z)).
  { intros z. apply NilZero.isi.
    - destruct z as [|p|p]; try discriminate.
      cbn. intros [= Hp]. now apply DecimalPos.Unsigned.to_uint_nonnil in Hp.
    - destruct z as [|p|p]; try discriminate.
      cbn. intros [= Hp]. now apply DecimalPos.Unsigned.to_uint_nonnil in Hp. }
  apply DecimalZ.to_int_inj.
  pose proof (Hisi a) as Ha. rewrite E, Hisi in Ha. now injection Ha.
Qed.

Lemma length_append (a b : string) :
  String.length (a ++ b)%string = (String.length a + String.length b)%nat.
Proof.
  induction a as [|c a IH]; cbn; [reflexivity|now rewrite IH].
Qed.

Lemma append_inv_tail (a b tail : string) :
  (a ++ tail)%string = (b ++ tail)%string -> a = b.
Proof.
  revert b. induction a as [|c a IH]; intros [|d b] E; cbn in E.
  - reflexivity.
  - exfalso. apply (f_equal String.length) in E.
    cbn in E. rewrite length_append in E. lia.
  - exfalso. apply (f_equal String.length) in E.
    cbn in E. rewrite length_append in E. lia.
  - injection E as -> E. f_equal. now apply IH.
Qed.

(** With an artifact, two downloads in a row leave every part of the state
    as it was (the artifact is neither changed nor consumed, an error shown
    stays) and add two clicks of links with the artifact as target to the
    log, the first named by the time of the first download and the second by
    the time of the second; downloads at different milliseconds get
    different file names. *)
Theorem downloads_are_named_by_their_time (w : World) (t1 t2 : Z) :
  qrCode w <> "" ->
  downloadQRCode t2 (downloadQRCode t1 w)
  = mkWorld (inputData w) (qrCode w) (logoPreview w) (error w) (loading w)
            (logoInputRef w) (canvasRef w) (pending w)
            (effects w
             ++ [AnchorClick (qrCode w) ("qrcode-" ++ toString t1 ++ ".png")%string;
                 AnchorClick (qrCode w) ("qrcode-" ++ toString t2 ++ ".png")%string])
  /\ (("qrcode-" ++ toString t1 ++ ".png")%string
      = ("qrcode-" ++ toString t2 ++ ".png")%string -> t1 = t2).
Proof.
  intros Hqr. split.
  - rewrite (proj2 (downloadQRCode_spec (downloadQRCode t1 w) t2));
      rewrite (proj2 (downloadQRCode_spec w t1) Hqr);
      cbn [inputData qrCode logoPreview error loading logoInputRef canvasRef
           pending effects].
    + now rewrite <- app_assoc.
    + exact Hqr.
  - intros E. cbn in E. injection E as E.
    apply toString_inj. exact (append_inv_tail _ _ ".png" E).
Qed.

(** After a generation that failed: the error stays through the downloads
    of the artifact of the generation before. *)
Lemma downloads_are_named_by_their_time_witness :
  let w := @run Sample.browser
             [ChangeInput Sample.hello; ClickGenerate;
              ChangeInput Sample.too_long; ClickGenerate] initial in
  let w2 := downloadQRCode 1730000000001 (downloadQRCode 1730000000000 w) in
  qrCode w <> ""
  /\ qrCode w2 = "data:image/png;base64,png400x400L1"
  /\ error w2 = "Failed to generate QR code"
  /\ skipn 3 (effects w2)
     = [AnchorClick "data:image/png;base64,png400x400L1"
          "qrcode-1730000000000.png";
        AnchorClick "data:image/png;base64,png400x400L1"
          "qrcode-1730000000001.png"].
Proof.
  intros w w2.
  assert (Hqr : qrCode w <> "") by (vm_compute; discriminate).
  destruct (downloads_are_named_by_their_time w 1730000000000 1730000000001 Hqr)
    as [E _].
  split; [exact Hqr|]. subst w2. rewrite E.
  repeat split; vm_compute; reflexivity.
Defined.

(** ** The scanner across re-activations *)

Module ScannerLifecycleFacts.

Import QRScanner ScannerLifecycle ScannerFacts.

(** After the cleanup the camera is free, whether a widget was scanning or
    not. *)
Lemma cleanup_releases (st : State) :
  (exists i, only_scanning i st) \/ camera_released st ->
  camera_released (cleanup st).
Proof.
  intros [[i Honly]|Hrel]; unfold cleanup, clear_current.
  - rewrite (proj1 Honly). now apply clear_only_scanning.
  - destruct (scannerRef st); [now apply clear_released|exact Hrel].
Qed.

Lemma effect_results (st : State) : results (effect st) = results st.
Proof. reflexivity. Qed.

Lemma cleanup_results (st : State) : results (cleanup st) = results st.
Proof.
  unfold cleanup, clear_current. now destruct (scannerRef st).
Qed.

(** One step keeps "one widget scans, or none", and calls [onResult] at most
    once, and only if a widget was scanning. *)
Lemma lifecycle_step_spec (st : State) (e : Step) :
  (exists i, only_scanning i st) \/ camera_released st ->
  let st' := lifecycle_step st e in
  ((exists i, only_scanning i st') \/ camera_released st')
  /\ (List.length (results st') <= S (List.length (results st)))%nat
  /\ (camera_released st -> e <> Rerender -> st' = st)
  /\ (List.length (results st) < List.length (results st') -> camera_released st')%nat.
Proof.
  intros Hinv. destruct e as [|j f]; cbn [lifecycle_step].
  - assert (Hrel : camera_released (cleanup st)) by now apply cleanup_releases.
    split; [left; eexists; now apply effect_only_scanning|].
    rewrite effect_results, cleanup_results.
    split; [lia|]. split; [intros _ Habs; now contradiction Habs|lia].
  - destruct Hinv as [[i Honly]|Hrel].
    + destruct (Nat.eqb_spec j i) as [->|Hneq].
      * pose proof Honly as (Href & (x & Hx & Hscan) & _).
        unfold sample. rewrite Hx, Hscan. destruct f as [text|err].
        { assert (Hrel : camera_released (onScanSuccess text st))
            by exact (onScanSuccess_released i text st Honly).
          split; [now right|].
          assert (Hlen : results (onScanSuccess text st) = results st ++ [text]).
          { unfold onScanSuccess, clear_current. cbn [scannerRef].
            now rewrite Href. }
          rewrite Hlen, length_app. cbn [List.length].
          split; [lia|]. split; [|intros _; exact Hrel].
          intros Hfree. exfalso.
          exact (proj1 (camera_released_nth st) Hfree i x Hx Hscan). }
        { split; [left; exists i; now apply onScanError_only_scanning|].
          cbn [onScanError results]. split; [lia|]. split; [|lia].
          intros Hfree. exfalso.
          exact (proj1 (camera_released_nth st) Hfree i x Hx Hscan). }
      * assert (Hsame : sample j f st = st).
        { apply sample_not_scanning. intros x Hx Hscan.
          exact (Hneq (proj2 (proj2 Honly) j x Hx Hscan)). }
        rewrite Hsame. split; [left; now exists i|].
        split; [lia|]. split; [reflexivity|lia].
    + assert (Hsame : sample j f st = st).
      { apply sample_not_scanning. intros x Hx.
        exact (proj1 (camera_released_nth st) Hrel j x Hx). }
      rewrite Hsame. split; [now right|].
      split; [lia|]. split; [reflexivity|lia].
Qed.

(** From a free camera, each run of the effect allows one more result. *)
Lemma lifecycle_budget (es : list Step) :
  forall st,
    ((exists i, only_scanning i st) ->
     (List.length (results (lifecycle es st))
      <= List.length (results st) + 1 + rerenders es)%nat)
    /\ (camera_released st ->
        (List.length (results (lifecycle es st))
         <= List.length (results st) + rerenders es)%nat)
    /\ ((exists i, only_scanning i st) \/ camera_released st ->
        (exists i, only_scanning i (lifecycle es st))
        \/ camera_released (lifecycle es st)).
Proof.
  induction es as [|e es IH]; intros st; cbn [lifecycle fold_left rerenders].
  - split; [lia|]. split; [lia|]. trivial.
  - fold (lifecycle es (lifecycle_step st e)).
    destruct (IH (lifecycle_step st e)) as (IHscan & IHfree & IHinv).
    split; [|split].
    + intros Honly.
      destruct (lifecycle_step_spec st e (or_introl Honly))
        as (Hinv' & Hlen & _ & Hgrew).
      destruct e as [|j f]; cbn [rerenders].
      * cbn [lifecycle_step] in *.
        assert (Hscan' : exists i, only_scanning i (effect (cleanup st))).
        { eexists. apply effect_only_scanning, cleanup_releases. now left. }
        specialize (IHscan Hscan').
        rewrite effect_results, cleanup_results in IHscan. lia.
      * destruct (Nat.eq_dec (List.length (results (lifecycle_step st (Sampled j f))))
                             (List.length (results st))) as [E|E].
        -- destruct Hinv' as [Hscan'|Hfree'].
           ++ specialize (IHscan Hscan'). lia.
           ++ specialize (IHfree Hfree'). lia.
        -- assert (Hfree' : camera_released (lifecycle_step st (Sampled j f))).
           { apply Hgrew.
             destruct (Nat.lt_ge_cases (List.length (results st))
                         (List.length (results (lifecycle_step st (Sampled j f)))))
               as [Hlt|Hge]; [exact Hlt|].
             exfalso.
             assert (Hmono : (List.length (results st)
                              <= List.length (results (lifecycle_step st (Sampled j f))))%nat).
             { cbn [lifecycle_step]. unfold sample.
               destruct (nth_error (widgets st) j) as [x|]; [|lia].
               destruct (status x), f; try lia.
               - unfold onScanSuccess, clear_current. cbn [scannerRef].
                 destruct (scannerRef st); cbn; rewrite length_app; lia.
               - cbn. lia. }
             lia. }
           specialize (IHfree Hfree'). lia.
    + intros Hfree.
      destruct (lifecycle_step_spec st e (or_intror Hfree))
        as (Hinv' & Hlen & Hsame & _).
      destruct e as [|j f]; cbn [rerenders].
      * cbn [lifecycle_step] in *.
        assert (Hscan' : exists i, only_scanning i (effect (cleanup st))).
        { eexists. apply effect_only_scanning, cleanup_releases. now right. }
        specialize (IHscan Hscan').
        rewrite effect_results, cleanup_results in IHscan. lia.
      * rewrite (Hsame Hfree) by discriminate.
        rewrite (Hsame Hfree) in IHfree by discriminate.
        exact (IHfree Hfree).
    + intros Hinv. apply IHinv.
      exact (proj1 (lifecycle_step_spec st e Hinv)).
Qed.

Lemma rerenders_app (es es' : list Step) :
  rerenders (es ++ es') = (rerenders es + rerenders es')%nat.
Proof.
  induction es as [|[|j f] es IH]; cbn [app rerenders]; [reflexivity| |exact IH].
  now rewrite IH.
Qed.

(** One sampled frame: nothing changes (the widget does not scan), or the
    error goes to the console and the widget scans on, or [onResult] is
    called once and the camera is released. *)
Lemma sampled_spec (st : State) (j : nat) (f : Frame) :
  (exists i, only_scanning i st) \/ camera_released st ->
  let st' := sample j f st in
  (camera_released st -> st' = st)
  /\ ((results st' = results st
       /\ ((exists i, only_scanning i st') \/ camera_released st'))
      \/ (exists text, results st' = results st ++ [text] /\ camera_released st')).
Proof.
  intros Hinv st'.
  assert (Hfree : camera_released st -> sample j f st = st).
  { intros Hrel. apply sample_not_scanning. intros x Hx.
    exact (proj1 (camera_released_nth st) Hrel j x Hx). }
  split; [exact Hfree|]. subst st'.
  destruct Hinv as [[i Honly]|Hrel].
  - destruct (Nat.eqb_spec j i) as [->|Hneq].
    + pose proof Honly as (Href & (x & Hx & Hscan) & _).
      unfold sample. rewrite Hx, Hscan. destruct f as [text|err].
      * right. exists text. split.
        -- unfold onScanSuccess, clear_current. cbn [scannerRef].
           now rewrite Href.
        -- exact (onScanSuccess_released i text st Honly).
      * left. split; [reflexivity|].
        left. exists i. now apply onScanError_only_scanning.
    + assert (Hsame : sample j f st = st).
      { apply sample_not_scanning. intros x Hx Hscan.
        exact (Hneq (proj2 (proj2 Honly) j x Hx Hscan)). }
      rewrite Hsame. left. split; [reflexivity|]. left. now exists i.
  - rewrite (Hfree Hrel). left. split; [reflexivity|now right].
Qed.

(** The frames sampled while the effect does not run again call [onResult]
    at most once, and after the call the camera is released. *)
Lemma activation_calls (es : list Step) :
  rerenders es = 0%nat ->
  forall st,
    (exists i, only_scanning i st) \/ camera_released st ->
    (camera_released st -> lifecycle es st = st)
    /\ (results (lifecycle es st) = results st
        \/ exists text, results (lifecycle es st) = results st ++ [text]
                        /\ camera_released (lifecycle es st)).
Proof.
  induction es as [|[|j f] es IH]; cbn [rerenders]; intros Hno st Hinv.
  - split; [reflexivity|now left].
  - discriminate.
  - cbn [lifecycle fold_left lifecycle_step].
    fold (lifecycle es (sample j f st)).
    destruct (sampled_spec st j f Hinv) as (Hfree & [(Hres & Hinv')|(text & Hres & Hrel')]).
    + destruct (IH Hno (sample j f st) Hinv') as (IHfree & IHres).
      split.
      * intros Hrel. rewrite (Hfree Hrel). rewrite (Hfree Hrel) in IHfree.
        exact (IHfree Hrel).
      * rewrite <- Hres. exact IHres.
    + destruct (IH Hno (sample j f st) (or_intror Hrel')) as (IHfree & _).
      split.
      * intros Hrel. rewrite (Hfree Hrel). rewrite (Hfree Hrel) in IHfree.
        exact (IHfree Hrel).
      * right. exists text. rewrite (IHfree Hrel'). split; assumption.
Qed.

(** Whatever the sequence of re-activations (the effect's cleanup followed
    by the effect, when [onResult] changes) and sampled frames after the
    first activation: at most one widget is scanning, and it is the one
    [scannerRef] holds; over any stretch of frames in which the effect does
    not run again, so in each activation, [onResult] is called at most
    once, and after that call the camera is released; the calls number at
    most one more than the re-activations; and the cleanup function
    releases the camera. *)
Theorem scanner_lifecycle_is_single_shot (es activation : list Step) :
  rerenders activation = 0%nat ->
  let before := lifecycle es (effect unmounted) in
  let st := lifecycle (es ++ activation) (effect unmounted) in
  ((exists i, only_scanning i st) \/ camera_released st)
  /\ (results st = results before
      \/ exists text, results st = results before ++ [text] /\ camera_released st)
  /\ (List.length (results st) <= 1 + rerenders es)%nat
  /\ camera_released (cleanup st).
Proof.
  intros Hno before st.
  assert (Hfree : camera_released unmounted) by (intros x Hin; destruct Hin).
  assert (Hstart : exists i, only_scanning i (effect unmounted))
    by (eexists; now apply effect_only_scanning).
  destruct (lifecycle_budget (es ++ activation) (effect unmounted))
    as (Hscan & _ & Hinv).
  assert (Hst : (exists i, only_scanning i st) \/ camera_released st)
    by (apply Hinv; now left).
  assert (Hbefore : (exists i, only_scanning i before) \/ camera_released before).
  { apply (proj2 (proj2 (lifecycle_budget es (effect unmounted)))). now left. }
  split; [exact Hst|]. split; [|split].
  - subst st. unfold lifecycle. rewrite fold_left_app.
    exact (proj2 (activation_calls activation Hno before Hbefore)).
  - specialize (Hscan Hstart). cbn [effect results unmounted] in Hscan.
    rewrite rerenders_app, Hno in Hscan.
    subst st. cbn in Hscan. lia.
  - now apply cleanup_releases.
Qed.

(** Once the cleanup function has run, no frame reaches [onResult] or the
    console: the state no longer changes until the effect runs again. *)
Theorem no_callback_after_cleanup (es : list Step) (frames : list (nat * Frame)) :
  let st := cleanup (lifecycle es (effect unmounted)) in
  feed frames st = st.
Proof.
  intros st. apply feed_released.
  apply cleanup_releases.
  assert (Hstart : exists i, only_scanning i (effect unmounted)).
  { eexists. apply effect_only_scanning. intros x Hin. destruct Hin. }
  exact (proj2 (proj2 (lifecycle_budget es (effect unmounted))) (or_introl Hstart)).
Qed.

(** A first activation that decodes "a", a re-activation, and in the
    second activation an error, two decoded frames of the new widget and a
    frame of the old one: [onResult] gets "a" and then "b" only. *)
Lemma scanner_lifecycle_is_single_shot_witness :
  let es := [Sampled 0 (Decoded "a"); Rerender] in
  let activation := [Sampled 1 (NotDecoded "no code"); Sampled 1 (Decoded "b");
                     Sampled 1 (Decoded "c"); Sampled 0 (Decoded "d")] in
  rerenders activation = 0%nat
  /\ results (lifecycle es (effect unmounted)) = ["a"]
  /\ results (lifecycle (es ++ activation) (effect unmounted)) = ["a"; "b"]
  /\ camera_released (lifecycle (es ++ activation) (effect unmounted)).
Proof.
  intros es activation.
  assert (Hno : rerenders activation = 0%nat) by reflexivity.
  destruct (scanner_lifecycle_is_single_shot es activation Hno)
    as (_ & [Hsame|(text & Hres & Hrel)] & _).
  - vm_compute in Hsame. discriminate Hsame.
  - split; [exact Hno|]. split; [reflexivity|]. split; [reflexivity|exact Hrel].
Defined.

End ScannerLifecycleFacts.
